(** * AquesTalkTtsCmd: a shallow embedding of the text-to-speech driver

    Source: [src/tools/aquestalk_tts_cmd/AquesTalkTtsCmd.cpp].

    The driver reads text from standard input, converts it line by line to
    a phoneme stream (koe) with the AqKanji2Koe component, synthesises one
    waveform with the AquesTalk component and writes it to a file.  Both
    components are native libraries bound at run time.

    A [std::string] is a [string] (a sequence of 8-bit characters), a C [int]
    is a [Z], a pointer is an address in [Z] with [0] for [nullptr].  The
    operating system and the two native components are an explicit [World]
    of oracles; every foreign call the driver makes is recorded, with its
    result, in a chronological trace of [event]s. *)

From Stdlib Require Import List ZArith Lia Bool Ascii String DecimalString.
Import ListNotations.

Local Open Scope string_scope.
Local Open Scope Z_scope.

#[local] Arguments Ascii.eqb : simpl never.
#[local] Arguments String.eqb : simpl never.

(** ** Strings *)

Module Str.

(** The characters of a string, first to last. *)
Definition chars (s : string) : list ascii := list_ascii_of_string s.

(** [s.empty()] *)
Definition empty (s : string) : bool :=
  match s with
  | EmptyString => true
  | String _ _ => false
  end.

(** [s.back()], defined on a non-empty string. *)
Fixpoint back (s : string) : option ascii :=
  match s with
  | EmptyString => None
  | String c EmptyString => Some c
  | String _ r => back r
  end.

(** [s.pop_back()] *)
Fixpoint pop_back (s : string) : string :=
  match s with
  | EmptyString => EmptyString
  | String _ EmptyString => EmptyString
  | String c r => String c (pop_back r)
  end.

(** [s.push_back(c)] *)
Definition push_back (s : string) (c : ascii) : string :=
  s ++ String c EmptyString.

Definition LF : ascii := "010"%char.
Definition CR : ascii := "013"%char.
Definition TAB : ascii := "009"%char.
Definition SP : ascii := " "%char.
Definition BACKSLASH : ascii := "092"%char.

End Str.

(** ** Text helpers of the driver *)

(** The lambda [is_space] of [trim]: blank, tab, carriage return, line feed. *)
Definition is_space (c : ascii) : bool :=
  Ascii.eqb c Str.SP || Ascii.eqb c Str.TAB || Ascii.eqb c Str.CR || Ascii.eqb c Str.LF.

(** First loop of [trim]:
    [while (!s.empty() && is_space(s.front())) s.erase(s.begin());] *)
Fixpoint trim_front (s : string) : string :=
  match s with
  | EmptyString => EmptyString
  | String c r => if is_space c then trim_front r else s
  end.

(** Second loop of [trim]:
    [while (!s.empty() && is_space(s.back())) s.pop_back();]
    Each iteration shortens the string, so [fuel = length s] iterations
    always reach the loop's exit. *)
Fixpoint trim_back (fuel : nat) (s : string) : string :=
  match fuel with
  | O => s
  | S fuel' =>
      match Str.back s with
      | Some c => if is_space c then trim_back fuel' (Str.pop_back s) else s
      | None => s
      end
  end.

Definition trim (s : string) : string :=
  let s1 := trim_front s in
  trim_back (String.length s1) s1.

(** The loop of [split_lines] over the remaining characters, with the
    vector [out] and the current line [cur]; the final [out.push_back(cur)]
    is its base case. *)
Fixpoint split_lines_loop (s : string) (out : list string) (cur : string)
  : list string :=
  match s with
  | EmptyString => out ++ [cur]
  | String c r =>
      if Ascii.eqb c Str.CR then split_lines_loop r out cur
      else if Ascii.eqb c Str.LF then split_lines_loop r (out ++ [cur]) ""
      else split_lines_loop r out (Str.push_back cur c)
  end.

Definition split_lines (s : string) : list string :=
  split_lines_loop s [] "".

(** ** Command-line helpers *)

(** [args[i].substr(n)]: the characters from position [n] on. *)
Definition substr_from (n : nat) (s : string) : string :=
  String.substring n (String.length s - n) s.

(** [get_arg_value]: the first [i] with [args[i] == key] and a following
    argument yields that argument; the first [i] where [args[i]] starts
    with [key=] yields the rest of [args[i]]. *)
Fixpoint get_arg_value (args : list string) (key : string) : option string :=
  match args with
  | [] => None
  | a :: rest =>
      match (a =? key)%string, rest with
      | true, v :: _ => Some v
      | _, _ =>
          if String.prefix (key ++ "=") a
          then Some (substr_from (String.length key + 1) a)
          else get_arg_value rest key
      end
  end.

Definition has_flag (args : list string) (key : string) : bool :=
  existsb (fun a => (a =? key)%string) args.

(** [optional::value_or] *)
Definition value_or {A : Type} (o : option A) (d : A) : A :=
  match o with
  | Some a => a
  | None => d
  end.

(** [std::stoi] of the C++ standard library, base 10: leading C-locale
    white space is skipped, an optional sign and at least one digit are
    read, what follows is ignored.  [None] stands for the exception
    ([invalid_argument] without a digit, [out_of_range] outside [int]). *)
Module Stoi.

Definition INT_MIN : Z := - 2147483648.
Definition INT_MAX : Z := 2147483647.

Definition is_cspace (c : ascii) : bool :=
  let n := nat_of_ascii c in
  (Nat.eqb n 32 || (Nat.leb 9 n && Nat.leb n 13))%bool.

Fixpoint skip_space (s : string) : string :=
  match s with
  | String c r => if is_cspace c then skip_space r else s
  | EmptyString => EmptyString
  end.

Definition digit (c : ascii) : option Z :=
  let n := nat_of_ascii c in
  if (Nat.leb 48 n && Nat.leb n 57)%bool then Some (Z.of_nat n - 48) else None.

Fixpoint digits (s : string) (acc : option Z) : option Z :=
  match s with
  | String c r =>
      match digit c with
      | Some d => digits r (Some (10 * value_or acc 0 + d))
      | None => acc
      end
  | EmptyString => acc
  end.

Definition magnitude (s : string) : option Z * bool :=
  match s with
  | String "+"%char r => (digits r None, false)
  | String "-"%char r => (digits r None, true)
  | _ => (digits s None, false)
  end.

Definition stoi (s : string) : option Z :=
  match magnitude (skip_space s) with
  | (Some m, neg) =>
      let v := if neg then - m else m in
      if (INT_MIN <=? v) && (v <=? INT_MAX) then Some v else None
  | (None, _) => None
  end.

End Stoi.

(** Lines 235-236: [if (speed < 50) speed = 50; if (speed > 300) speed = 300;] *)
Definition clamp_speed (speed : Z) : Z :=
  let speed := if speed <? 50 then 50 else speed in
  if speed >? 300 then 300 else speed.

(** Line 225: the comparison of [encoding] with the three legacy names. *)
Definition use_sjis_of (encoding : string) : bool :=
  (encoding =? "sjis")%string || (encoding =? "shiftjis")%string
  || (encoding =? "cp932")%string.

(** [operator<<] for an [int]. *)
Definition show_int (n : Z) : string := NilZero.string_of_int (Z.to_int n).

Definition nl : string := String Str.LF "".

(** ** The world outside the driver *)

(** A [fs::path], kept as its UTF-8 text; [widen_utf8] and [utf8_path]
    are mutually inverse on such text and are not represented. *)
Definition path := string.

(** [p / q] for a relative [q]: the preferred separator of the platform,
    a backslash, then [q]. *)
Definition path_div (p : path) (q : string) : path :=
  p ++ String Str.BACKSLASH q.

Declare Scope path_scope.
Infix "//" := path_div (at level 40, left associativity) : path_scope.
Local Open Scope path_scope.

(** Addresses; [null] is [nullptr]. *)
Definition ptr := Z.
Definition null : ptr := 0.
Definition is_null (p : ptr) : bool := p =? null.

(** The two entry points every operation has, one per text encoding. *)
Inductive codec := Utf8 | Sjis.

(** One observable action of the process, with the answer it received. *)
Inductive event :=
| LoadLibraryW (dll : path) (module : ptr)
| FreeLibrary (module : ptr)
| K2k_SetDevKey (key : string)
| Tk_SetDevKey (key : string)
| Tk_SetUsrKey (key : string)
| K2k_Create (dic : string) (h : ptr) (err : Z)
| K2k_Release (h : ptr)
| K2k_Convert (c : codec) (h : ptr) (line : string) (rc : Z) (koe : string)
| Tk_Synthe (c : codec) (koe : string) (speed : Z) (wav : ptr) (size : Z)
| Tk_FreeWave (wav : ptr)
| CreateDirectories (dir : path)
| OpenOut (file : path) (ok : bool)
| WriteOut (file : path) (wav : ptr) (size : Z)
| ReadStdin (text : string)
| Stderr (text : string)
| Stdout (text : string).

Definition trace := list event.
Bind Scope list_scope with trace.

Record World := {
  w_args : list string;                       (* argv, null entries as "" *)
  w_stdin : string;                           (* read_all_stdin() *)
  w_getenv : string -> string;                (* getenv_str *)
  w_exe_dir : path;                           (* exe_dir() *)
  w_temp_wav_path : path;                     (* temp_wav_path() *)
  w_exists : path -> bool;                    (* fs::exists *)
  w_has_parent_path : path -> bool;
  w_parent_path : path -> path;
  w_LoadLibraryW : path -> ptr;
  w_GetProcAddress : ptr -> string -> ptr;
  (* AqKanji2Koe_Create: the session handle and *pErr *)
  w_Create : string -> ptr * Z;
  (* AqKanji2Koe_Convert_utf8 / _sjis after the calls made so far: the
     return code and the C string left in the 8192-byte buffer *)
  w_Convert : codec -> trace -> ptr -> string -> Z * string;
  (* AquesTalk_Synthe / _Synthe_Utf8: the buffer and *pSize *)
  w_Synthe : codec -> string -> Z -> ptr * Z;
  w_open_out : path -> bool                   (* std::ofstream opened *)
}.

(** ** Programs: a trace-state monad with early return *)

Inductive step (A : Type) :=
| Next (a : A)
| Halt (code : Z).
Arguments Next {A} a.
Arguments Halt {A} code.

Definition Prog (A : Type) : Type := trace -> step A * trace.

Definition ret {A} (a : A) : Prog A := fun t => (Next a, t).

Definition bind {A B} (m : Prog A) (f : A -> Prog B) : Prog B :=
  fun t =>
    match m t with
    | (Next a, t') => f a t'
    | (Halt c, t') => (Halt c, t')
    end.

(** [return code;] inside [main]. *)
Definition halt {A} (code : Z) : Prog A := fun t => (Halt code, t).

Definition emit (e : event) : Prog unit := fun t => (Next tt, (t ++ [e])%list).

Definition history : Prog trace := fun t => (Next t, t).

Declare Scope prog_scope.
Delimit Scope prog_scope with prog.
Notation "x <- m ;; k" := (bind m (fun x => k))
  (at level 61, m at next level, right associativity) : prog_scope.
Notation "m ;; k" := (bind m (fun _ => k))
  (at level 61, right associativity) : prog_scope.
Local Open Scope prog_scope.

(** [std::cerr << text] *)
Definition cerr (text : string) : Prog unit := emit (Stderr text).

(** ** Dynamic capability loaders *)

(** [struct AqKanji2KoeApi]: the module and its five entry points. *)
Record AqKanji2KoeApi := {
  k2k_mod : ptr;
  k2k_Create : ptr;
  k2k_Release : ptr;
  k2k_ConvertUtf8 : ptr;
  k2k_ConvertSjis : ptr;
  k2k_SetDevKey : ptr
}.

(** [struct AquesTalkApi] *)
Record AquesTalkApi := {
  tk_mod : ptr;
  tk_Synthe : ptr;
  tk_SyntheUtf8 : ptr;
  tk_FreeWave : ptr;
  tk_SetDevKey : ptr;
  tk_SetUsrKey : ptr
}.

Section Loaders.

Variable w : World.

(** Lines 110-114: the members bound from the loaded module [m]. *)
Definition k2k_bind (m : ptr) : AqKanji2KoeApi := {|
  k2k_mod := m;
  k2k_Create := w_GetProcAddress w m "AqKanji2Koe_Create";
  k2k_Release := w_GetProcAddress w m "AqKanji2Koe_Release";
  k2k_ConvertUtf8 := w_GetProcAddress w m "AqKanji2Koe_Convert_utf8";
  k2k_ConvertSjis := w_GetProcAddress w m "AqKanji2Koe_Convert_sjis";
  k2k_SetDevKey := w_GetProcAddress w m "AqKanji2Koe_SetDevKey"
|}.

Definition load_kanji2koe (dll_path : path) : Prog (option AqKanji2KoeApi) :=
  let m := w_LoadLibraryW w dll_path in
  emit (LoadLibraryW dll_path m) ;;
  if is_null m then ret None else
  let api := k2k_bind m in
  if is_null (k2k_Create api) || is_null (k2k_Release api)
     || is_null (k2k_ConvertUtf8 api) || is_null (k2k_ConvertSjis api)
     || is_null (k2k_SetDevKey api)
  then emit (FreeLibrary (k2k_mod api)) ;; ret None
  else ret (Some api).

(** Lines 147-151. *)
Definition tk_bind (m : ptr) : AquesTalkApi := {|
  tk_mod := m;
  tk_Synthe := w_GetProcAddress w m "AquesTalk_Synthe";
  tk_SyntheUtf8 := w_GetProcAddress w m "AquesTalk_Synthe_Utf8";
  tk_FreeWave := w_GetProcAddress w m "AquesTalk_FreeWave";
  tk_SetDevKey := w_GetProcAddress w m "AquesTalk_SetDevKey";
  tk_SetUsrKey := w_GetProcAddress w m "AquesTalk_SetUsrKey"
|}.

Definition load_aquestalk (dll_path : path) : Prog (option AquesTalkApi) :=
  let m := w_LoadLibraryW w dll_path in
  emit (LoadLibraryW dll_path m) ;;
  if is_null m then ret None else
  let api := tk_bind m in
  if is_null (tk_Synthe api) || is_null (tk_SyntheUtf8 api)
     || is_null (tk_FreeWave api) || is_null (tk_SetDevKey api)
     || is_null (tk_SetUsrKey api)
  then emit (FreeLibrary (tk_mod api)) ;; ret None
  else ret (Some api).

End Loaders.

(** ** The driver *)

Definition usage_text : string :=
  "aquestalk_tts_cmd" ++ nl
  ++ "  Reads UTF-8 text from stdin and outputs a WAV file using AqKanji2Koe + AquesTalk1." ++ nl ++ nl
  ++ "Usage:" ++ nl
  ++ "  echo 縺薙ｓ縺ｫ縺｡縺ｯ | aquestalk_tts_cmd.exe --out out.wav" ++ nl ++ nl
  ++ "Options:" ++ nl
  ++ "  --aquestalk-root <path>   Root folder containing aqtk1_win_200/ and aqk2k_win_413/ (default: auto-detect)" ++ nl
  ++ "  --voice <id>              Voice folder under aqtk1_win_200/.../lib64 (default: f1)" ++ nl
  ++ "  --speed <50..300>         Speech speed percent (default: 100)" ++ nl
  ++ "  --out <path>              Output wav path (default: temp file)" ++ nl
  ++ "  --encoding <utf8|sjis>    Stdin text encoding (default: utf8)" ++ nl
  ++ "  --dev-key <key>           Developer license key (optional; env AQUEST_DEV_KEY also supported)" ++ nl
  ++ "  --usr-key <key>           User license key (optional; env AQUEST_USR_KEY also supported)" ++ nl.

Definition usage : Prog unit := cerr usage_text.

Definition codec_of (use_sjis : bool) : codec := if use_sjis then Sjis else Utf8.

(** The locals of [main] that are live after argument handling
    (line 262 on). *)
Record Config := {
  voice : string;
  use_sjis : bool;
  speed : Z;
  dev_key : string;
  usr_key : string;
  out_path : path;
  aq_root : path
}.

(** Lines 262-264: the three required paths. *)
Definition k2k_dll_of (cfg : Config) : path :=
  aq_root cfg // "aqk2k_win_413" // "aqk2k_win" // "lib64" // "AqKanji2Koe.dll".
Definition k2k_dic_of (cfg : Config) : path :=
  aq_root cfg // "aqk2k_win_413" // "aqk2k_win" // "aq_dic".
Definition tk_dll_of (cfg : Config) : path :=
  aq_root cfg // "aqtk1_win_200" // "aqtk1_win" // "lib64" // voice cfg // "AquesTalk.dll".

(** The diagnostics of [main]. *)
Definition msg_invalid_speed : string := "Invalid --speed" ++ nl.
Definition msg_no_root : string :=
  "Could not auto-detect aquestalk root. Use --aquestalk-root." ++ nl.
Definition msg_missing_sdk : string := "Missing SDK files:" ++ nl.
Definition msg_hint : string := "Hint: check --aquestalk-root and --voice." ++ nl.
Definition msg_load_k2k : string := "Failed to load AqKanji2Koe.dll" ++ nl.
Definition msg_load_tk (voice : string) : string :=
  "Failed to load AquesTalk.dll (voice=" ++ voice ++ ")" ++ nl.
Definition msg_create_failed (err : Z) : string :=
  "AqKanji2Koe_Create failed: " ++ show_int err ++ nl.
Definition msg_no_input : string := "No input text on stdin." ++ nl.
Definition msg_convert_failed (rc : Z) : string :=
  "AqKanji2Koe_Convert failed: " ++ show_int rc ++ nl.
Definition msg_empty_koe : string := "Conversion produced empty koe." ++ nl.
Definition msg_synthe_failed (size : Z) : string :=
  "AquesTalk_Synthe failed: " ++ show_int size ++ nl.
Definition msg_open_failed : string := "Failed to open output file." ++ nl.

Section Driver.

Variable w : World.

(** The loop of [find_aquestalk_root_from], [i] iterations left. *)
Fixpoint find_root_loop (i : nat) (p : path) : option path :=
  match i with
  | O => None
  | S i' =>
      let candidate := p // "aquestalk" in
      if w_exists w candidate then Some candidate
      else if negb (w_has_parent_path w p) then None
      else find_root_loop i' (w_parent_path w p)
  end.

Definition find_aquestalk_root_from (start : path) : option path :=
  find_root_loop 6 start.

(** Lines 214-260 of [main]: argument handling.  It returns from [main]
    on [--help], on a [--speed] that [std::stoi] rejects and on a root
    that cannot be found; otherwise it leaves the locals of a [Config]. *)
Definition parse_config : Prog Config :=
  let args := w_args w in
  if has_flag args "--help" || has_flag args "-h" then usage ;; halt 0 else
  let voice := value_or (get_arg_value args "--voice") "f1" in
  let encoding := value_or (get_arg_value args "--encoding") "utf8" in
  let use_sjis := use_sjis_of encoding in
  speed <- match get_arg_value args "--speed" with
           | Some s =>
               match Stoi.stoi s with
               | Some v => ret v
               | None => cerr msg_invalid_speed ;; halt 2
               end
           | None => ret 100
           end ;;
  let speed := clamp_speed speed in
  let dev_key :=
    value_or (get_arg_value args "--dev-key") (w_getenv w "AQUEST_DEV_KEY") in
  let usr_key :=
    value_or (get_arg_value args "--usr-key") (w_getenv w "AQUEST_USR_KEY") in
  let out_path :=
    match get_arg_value args "--out" with
    | Some o => o
    | None => w_temp_wav_path w
    end in
  aq_root <- match get_arg_value args "--aquestalk-root" with
             | Some r => ret r
             | None =>
                 match find_aquestalk_root_from (w_exe_dir w) with
                 | Some found => ret found
                 | None => cerr msg_no_root ;; halt 2
                 end
             end ;;
  ret {| voice := voice; use_sjis := use_sjis; speed := speed;
         dev_key := dev_key; usr_key := usr_key;
         out_path := out_path; aq_root := aq_root |}.

(** Lines 312-333: the loop over [lines], with the stream [koe_all]
    assembled so far.  A failed conversion releases the session and
    returns 4 from [main]. *)
Fixpoint convert_lines (sjis : bool) (h : ptr) (lines : list string)
    (koe_all : string) : Prog string :=
  match lines with
  | [] => ret koe_all
  | line_raw :: rest =>
      let line := trim line_raw in
      if Str.empty line then convert_lines sjis h rest koe_all else
      past <- history ;;
      let '(rc, koe) := w_Convert w (codec_of sjis) past h line in
      emit (K2k_Convert (codec_of sjis) h line rc koe) ;;
      if negb (rc =? 0) then
        cerr (msg_convert_failed rc) ;;
        emit (K2k_Release h) ;;
        halt 4
      else
      let koe_part := trim koe in
      if Str.empty koe_part then convert_lines sjis h rest koe_all else
      let koe_all := if negb (Str.empty koe_all) then koe_all ++ "/" else koe_all in
      convert_lines sjis h rest (koe_all ++ koe_part)
  end.

(** Lines 262-371 of [main]. *)
Definition pipeline (cfg : Config) : Prog unit :=
  let k2k_dll := k2k_dll_of cfg in
  let k2k_dic := k2k_dic_of cfg in
  let tk_dll := tk_dll_of cfg in
  if negb (w_exists w k2k_dll) || negb (w_exists w k2k_dic) || negb (w_exists w tk_dll)
  then
    cerr msg_missing_sdk ;;
    cerr ("  " ++ k2k_dll ++ nl) ;;
    cerr ("  " ++ k2k_dic ++ nl) ;;
    cerr ("  " ++ tk_dll ++ nl) ;;
    cerr msg_hint ;;
    halt 2
  else
  k2k_api <- load_kanji2koe w k2k_dll ;;
  match k2k_api with
  | None => cerr msg_load_k2k ;; halt 3
  | Some _ =>
  tk_api <- load_aquestalk w tk_dll ;;
  match tk_api with
  | None => cerr (msg_load_tk (voice cfg)) ;; halt 3
  | Some _ =>
  (if negb (Str.empty (dev_key cfg))
   then emit (K2k_SetDevKey (dev_key cfg)) ;; emit (Tk_SetDevKey (dev_key cfg))
   else ret tt) ;;
  (if negb (Str.empty (usr_key cfg))
   then emit (Tk_SetUsrKey (usr_key cfg))
   else ret tt) ;;
  let dic_utf8 := k2k_dic in
  let '(h, err) := w_Create w dic_utf8 in
  emit (K2k_Create dic_utf8 h err) ;;
  if is_null h then cerr (msg_create_failed err) ;; halt 4 else
  emit (ReadStdin (w_stdin w)) ;;
  let input := trim (w_stdin w) in
  if Str.empty input then
    cerr msg_no_input ;;
    emit (K2k_Release h) ;;
    halt 2
  else
  let lines := split_lines input in
  koe_all <- convert_lines (use_sjis cfg) h lines "" ;;
  emit (K2k_Release h) ;;
  if Str.empty koe_all then cerr msg_empty_koe ;; halt 4 else
  let '(wav, wav_size) := w_Synthe w (codec_of (use_sjis cfg)) koe_all (speed cfg) in
  emit (Tk_Synthe (codec_of (use_sjis cfg)) koe_all (speed cfg) wav wav_size) ;;
  if is_null wav || (wav_size <=? 0) then
    cerr (msg_synthe_failed wav_size) ;; halt 5
  else
  emit (CreateDirectories (w_parent_path w (out_path cfg))) ;;
  let opened := w_open_out w (out_path cfg) in
  emit (OpenOut (out_path cfg) opened) ;;
  if negb opened then
    emit (Tk_FreeWave wav) ;;
    cerr msg_open_failed ;;
    halt 6
  else
  emit (WriteOut (out_path cfg) wav wav_size) ;;
  emit (Tk_FreeWave wav) ;;
  emit (Stdout (out_path cfg ++ nl)) ;;
  halt 0
  end end.

Definition main : Prog unit :=
  cfg <- parse_config ;;
  pipeline cfg.

End Driver.

(** A run of the process: [main] from the empty trace.  [main] leaves by
    [return] on every path. *)
Definition run (w : World) : step unit * trace := main w [].

Definition exit_code (w : World) : option Z :=
  match fst (run w) with
  | Halt c => Some c
  | Next _ => None
  end.

Definition events (w : World) : trace := snd (run w).

(** ** Observations on traces *)

Definition count (p : event -> bool) (t : trace) : nat :=
  List.length (filter p t).

Definition is_load (e : event) : bool :=
  match e with LoadLibraryW _ _ => true | _ => false end.

Definition is_create (e : event) : bool :=
  match e with K2k_Create _ _ _ => true | _ => false end.

Definition is_release (e : event) : bool :=
  match e with K2k_Release _ => true | _ => false end.

Definition is_convert (e : event) : bool :=
  match e with K2k_Convert _ _ _ _ _ => true | _ => false end.

Definition is_synthe (e : event) : bool :=
  match e with Tk_Synthe _ _ _ _ _ => true | _ => false end.

Definition is_freewave (e : event) : bool :=
  match e with Tk_FreeWave _ => true | _ => false end.

Definition is_key (e : event) : bool :=
  match e with
  | K2k_SetDevKey _ | Tk_SetDevKey _ | Tk_SetUsrKey _ => true
  | _ => false
  end.

(** The output file comes into being when the stream is opened, and
    receives the waveform with [ofs.write]. *)
Definition touches_output (e : event) : bool :=
  match e with
  | OpenOut _ opened => opened
  | WriteOut _ _ _ => true
  | _ => false
  end.



(** Everything written to standard error, in order. *)
Definition stderr_of (t : trace) : list string :=
  flat_map (fun e => match e with Stderr s => [s] | _ => [] end) t.

(** A line all of whose characters [trim] strips. *)
Definition blank (s : string) : Prop := Forall (fun c => is_space c = true) (Str.chars s).


(** *** [split_lines] *)

(** A character that [split_lines] copies into a line. *)
Definition kept (c : ascii) : bool :=
  negb (Ascii.eqb c Str.CR) && negb (Ascii.eqb c Str.LF).

(** A line free of line feeds and carriage returns. *)
Definition clean (l : string) : Prop :=
  ~ In Str.LF (Str.chars l) /\ ~ In Str.CR (Str.chars l).

Definition count_char (c : ascii) (s : string) : nat :=
  List.length (filter (Ascii.eqb c) (Str.chars s)).

(** [s] without its carriage returns. *)
Definition drop_cr (s : string) : string :=
  string_of_list_ascii (filter (fun c => negb (Ascii.eqb c Str.CR)) (Str.chars s)).

(** *** The phoneme stream, as the specification words it *)

(** The phoneme parts a trace records: the trimmed, non-empty results of
    its successful conversions, in call order. *)
Definition koe_parts (t : trace) : list string :=
  flat_map
    (fun e =>
       match e with
       | K2k_Convert _ _ _ rc koe =>
           if (rc =? 0) && negb (Str.empty (trim koe)) then [trim koe] else []
       | _ => []
       end) t.

(** The parts joined by the pause separator. *)
Definition join_pause (parts : list string) : string := String.concat "/" parts.





(** *** The speed a command line asks for *)

(** [v] is the value of [speed] at line 234: 100, or what [std::stoi] made
    of the [--speed] argument. *)
Definition requested_speed (args : list string) (v : Z) : Prop :=
  match get_arg_value args "--speed" with
  | Some s => Stoi.stoi s = Some v
  | None => v = 100
  end.

(** ** Sample worlds *)

Module Sample.

Definition root : path := "C:\aq".

Definition cfg0 : Config := {|
  voice := "f1"; use_sjis := false; speed := 100;
  dev_key := ""; usr_key := "";
  out_path := "out.wav"; aq_root := root
|}.

(** A healthy installation under [root]; the caller chooses the command
    line, the input, which files exist, what the [n]-th conversion call
    answers, what synthesis answers and whether the output opens. *)
Definition make (args : list string) (stdin : string) (exists_ : path -> bool)
    (convert : nat -> string -> Z * string) (synthe : ptr * Z) (opened : bool)
  : World := {|
  w_args := "aquestalk_tts_cmd.exe" :: "--aquestalk-root" :: root :: "--out" :: "out.wav" :: args;
  w_stdin := stdin;
  w_getenv := fun _ => "";
  w_exe_dir := "C:\app";
  w_temp_wav_path := "C:\tmp\aqt1.wav";
  w_exists := exists_;
  w_has_parent_path := fun _ => true;
  w_parent_path := fun _ => "C:\out";
  w_LoadLibraryW := fun dll => 4096 + Z.of_nat (String.length dll);
  w_GetProcAddress := fun m name => m + Z.of_nat (String.length name);
  w_Create := fun _ => (77, 0);
  w_Convert := fun _ past _ line => convert (count is_convert past) line;
  w_Synthe := fun _ _ _ => synthe;
  w_open_out := fun _ => opened
|}.

Definition all_exist : path -> bool := fun _ => true.

(** A converter that answers every line with the line in angle
    brackets, followed by a line feed. *)
Definition echo : nat -> string -> Z * string :=
  fun _ line => (0, "<" ++ line ++ ">" ++ nl).

(** Two text lines, everything succeeds. *)
Definition two_lines (args : list string) : World :=
  make args ("line one" ++ nl ++ "line two") all_exist echo (500, 44) true.


(** Nothing at all on standard input. *)
Definition no_input : World :=
  make [] "" all_exist echo (500, 44) true.



(** The second conversion call reports error 105. *)
Definition second_fails : World :=
  make [] ("line one" ++ nl ++ "line two") all_exist
    (fun n line => if Nat.eqb n 1 then (105, "") else echo n line) (500, 44) true.

(** Synthesis hands back a buffer but reports size 0. *)
Definition sized_zero : World :=
  make [] "hello" all_exist echo (500, 0) true.

(** The output file cannot be opened. *)
Definition unwritable : World :=
  make [] "hello" all_exist echo (500, 44) false.

(** The synthesis library lacks [AquesTalk_SetUsrKey]. *)
Definition usr_key_unbound : World := {|
  w_args := w_args (two_lines []);
  w_stdin := w_stdin (two_lines []);
  w_getenv := w_getenv (two_lines []);
  w_exe_dir := w_exe_dir (two_lines []);
  w_temp_wav_path := w_temp_wav_path (two_lines []);
  w_exists := w_exists (two_lines []);
  w_has_parent_path := w_has_parent_path (two_lines []);
  w_parent_path := w_parent_path (two_lines []);
  w_LoadLibraryW := w_LoadLibraryW (two_lines []);
  w_GetProcAddress := fun m name =>
    if (name =? "AquesTalk_SetUsrKey")%string then null
    else w_GetProcAddress (two_lines []) m name;
  w_Create := w_Create (two_lines []);
  w_Convert := w_Convert (two_lines []);
  w_Synthe := w_Synthe (two_lines []);
  w_open_out := w_open_out (two_lines [])
|}.

(** No input, and [AqKanji2Koe_Create] fails with error 103. *)
Definition no_session : World := {|
  w_args := w_args no_input;
  w_stdin := w_stdin no_input;
  w_getenv := w_getenv no_input;
  w_exe_dir := w_exe_dir no_input;
  w_temp_wav_path := w_temp_wav_path no_input;
  w_exists := w_exists no_input;
  w_has_parent_path := w_has_parent_path no_input;
  w_parent_path := w_parent_path no_input;
  w_LoadLibraryW := w_LoadLibraryW no_input;
  w_GetProcAddress := w_GetProcAddress no_input;
  w_Create := fun _ => (null, 103);
  w_Convert := w_Convert no_input;
  w_Synthe := w_Synthe no_input;
  w_open_out := w_open_out no_input
|}.

(** No [--aquestalk-root]: the root is looked for from the directory of
    the executable, [C:\app\bin], whose parent is [C:\app]; the caller
    says which paths exist. *)
Definition detecting (exists_ : path -> bool) : World := {|
  w_args := ["aquestalk_tts_cmd.exe"; "--out"; "out.wav"];
  w_stdin := "hello";
  w_getenv := fun _ => "";
  w_exe_dir := "C:\app\bin";
  w_temp_wav_path := "C:\tmp\aqt1.wav";
  w_exists := exists_;
  w_has_parent_path := fun _ => true;
  w_parent_path := fun p => if (p =? "C:\app\bin")%string then "C:\app" else "C:";
  w_LoadLibraryW := fun dll => 4096 + Z.of_nat (String.length dll);
  w_GetProcAddress := fun m name => m + Z.of_nat (String.length name);
  w_Create := fun _ => (77, 0);
  w_Convert := fun _ past _ line => echo (count is_convert past) line;
  w_Synthe := fun _ _ _ => (500, 44);
  w_open_out := fun _ => true
|}.

(** License keys from the environment, the developer key overridden on
    the command line. *)
Definition licensed (args : list string) : World := {|
  w_args := w_args (two_lines args);
  w_stdin := "hello";
  w_getenv := fun name =>
    if (name =? "AQUEST_DEV_KEY")%string then "env-dev"
    else if (name =? "AQUEST_USR_KEY")%string then "env-usr" else "";
  w_exe_dir := w_exe_dir (two_lines args);
  w_temp_wav_path := w_temp_wav_path (two_lines args);
  w_exists := w_exists (two_lines args);
  w_has_parent_path := w_has_parent_path (two_lines args);
  w_parent_path := w_parent_path (two_lines args);
  w_LoadLibraryW := w_LoadLibraryW (two_lines args);
  w_GetProcAddress := w_GetProcAddress (two_lines args);
  w_Create := w_Create (two_lines args);
  w_Convert := w_Convert (two_lines args);
  w_Synthe := w_Synthe (two_lines args);
  w_open_out := w_open_out (two_lines args)
|}.


End Sample.

(** *** Capability sets *)

(** The entry points each loader asks for, in the order of the source. *)
Definition k2k_symbols : list string :=
  ["AqKanji2Koe_Create"; "AqKanji2Koe_Release"; "AqKanji2Koe_Convert_utf8";
   "AqKanji2Koe_Convert_sjis"; "AqKanji2Koe_SetDevKey"].

Definition tk_symbols : list string :=
  ["AquesTalk_Synthe"; "AquesTalk_Synthe_Utf8"; "AquesTalk_FreeWave";
   "AquesTalk_SetDevKey"; "AquesTalk_SetUsrKey"].

(** Every member of the struct is bound. *)
Definition k2k_resolved (api : AqKanji2KoeApi) : Prop :=
  k2k_mod api <> null /\ k2k_Create api <> null /\ k2k_Release api <> null
  /\ k2k_ConvertUtf8 api <> null /\ k2k_ConvertSjis api <> null
  /\ k2k_SetDevKey api <> null.

Definition tk_resolved (api : AquesTalkApi) : Prop :=
  tk_mod api <> null /\ tk_Synthe api <> null /\ tk_SyntheUtf8 api <> null
  /\ tk_FreeWave api <> null /\ tk_SetDevKey api <> null
  /\ tk_SetUsrKey api <> null.

(** What a loader may leave behind when it has no result: a failed load,
    or a load undone by [FreeLibrary] because [missing] did not resolve. *)
Definition load_refused (w : World) (symbols : list string) (dll : path)
    (t t' : trace) : Prop :=
  let m := w_LoadLibraryW w dll in
  (m = null /\ t' = (t ++ [LoadLibraryW dll m])%list)
  \/ (m <> null
      /\ (exists missing, In missing symbols /\ w_GetProcAddress w m missing = null)
      /\ t' = (t ++ [LoadLibraryW dll m; FreeLibrary m])%list).

(** *** The runs of the pipeline *)

(** Lines 330-332: how the loop extends the stream by one part. *)
Definition add_part (koe_all koe_part : string) : string :=
  (if negb (Str.empty koe_all) then koe_all ++ "/" else koe_all) ++ koe_part.

(** A conversion call of the loop that succeeded: through entry point [c],
    on session [h], for a non-empty line, answering 0. *)
Definition converted_ok (c : codec) (h : ptr) (e : event) : Prop :=
  exists line koe, e = K2k_Convert c h line 0 koe /\ line <> "".

(** The text lines handed to the converter, in call order. *)
Definition converted_lines (t : trace) : list string :=
  flat_map (fun e => match e with K2k_Convert _ _ l _ _ => [l] | _ => [] end) t.

(** The lines the loop does not skip: the trimmed lines of the trimmed
    input that are not empty. *)
Definition wanted_lines (stdin : string) : list string :=
  filter (fun l => negb (Str.empty l)) (map trim (split_lines (trim stdin))).

(** Lines 286-292: the license keys pushed into the components. *)
Definition key_events (cfg : Config) : trace :=
  (if negb (Str.empty (dev_key cfg))
   then [K2k_SetDevKey (dev_key cfg); Tk_SetDevKey (dev_key cfg)] else [])
  ++ (if negb (Str.empty (usr_key cfg)) then [Tk_SetUsrKey (usr_key cfg)] else []).

(** The trace up to and including [AqKanji2Koe_Create]. *)
Definition session_events (w : World) (cfg : Config) (h : ptr) (err : Z) : trace :=
  [LoadLibraryW (k2k_dll_of cfg) (w_LoadLibraryW w (k2k_dll_of cfg));
   LoadLibraryW (tk_dll_of cfg) (w_LoadLibraryW w (tk_dll_of cfg))]
  ++ key_events cfg ++ [K2k_Create (k2k_dic_of cfg) h err].

(** The trace up to the end of the conversion calls [d] that succeeded. *)
Definition converting_events (w : World) (cfg : Config) (h : ptr) (err : Z)
    (d : trace) : trace :=
  session_events w cfg h err ++ ReadStdin (w_stdin w) :: d.

(** The ten ways [pipeline] returns from [main], each with its exit code
    and its complete trace. *)
Inductive halted (w : World) (cfg : Config) : Z -> trace -> Prop :=
| H_missing_files :
    negb (w_exists w (k2k_dll_of cfg)) || negb (w_exists w (k2k_dic_of cfg))
    || negb (w_exists w (tk_dll_of cfg)) = true ->
    halted w cfg 2
      [Stderr msg_missing_sdk;
       Stderr ("  " ++ k2k_dll_of cfg ++ nl);
       Stderr ("  " ++ k2k_dic_of cfg ++ nl);
       Stderr ("  " ++ tk_dll_of cfg ++ nl);
       Stderr msg_hint]
| H_k2k_not_loaded t1 :
    load_refused w k2k_symbols (k2k_dll_of cfg) [] t1 ->
    halted w cfg 3 (t1 ++ [Stderr msg_load_k2k])
| H_tk_not_loaded t2 :
    load_refused w tk_symbols (tk_dll_of cfg)
      [LoadLibraryW (k2k_dll_of cfg) (w_LoadLibraryW w (k2k_dll_of cfg))] t2 ->
    halted w cfg 3 (t2 ++ [Stderr (msg_load_tk (voice cfg))])
| H_create_failed h err :
    w_Create w (k2k_dic_of cfg) = (h, err) -> h = null ->
    halted w cfg 4 (session_events w cfg h err ++ [Stderr (msg_create_failed err)])
| H_no_input h err :
    w_Create w (k2k_dic_of cfg) = (h, err) -> h <> null ->
    trim (w_stdin w) = "" ->
    halted w cfg 2
      (session_events w cfg h err
       ++ [ReadStdin (w_stdin w); Stderr msg_no_input; K2k_Release h])
| H_convert_failed h err d line rc koe :
    w_Create w (k2k_dic_of cfg) = (h, err) -> h <> null ->
    trim (w_stdin w) <> "" ->
    Forall (converted_ok (codec_of (use_sjis cfg)) h) d ->
    rc <> 0 ->
    halted w cfg 4
      (converting_events w cfg h err d
       ++ [K2k_Convert (codec_of (use_sjis cfg)) h line rc koe;
           Stderr (msg_convert_failed rc); K2k_Release h])
| H_empty_koe h err d :
    w_Create w (k2k_dic_of cfg) = (h, err) -> h <> null ->
    trim (w_stdin w) <> "" ->
    Forall (converted_ok (codec_of (use_sjis cfg)) h) d ->
    converted_lines d = wanted_lines (w_stdin w) ->
    koe_parts d = [] ->
    halted w cfg 4
      (converting_events w cfg h err d ++ [K2k_Release h; Stderr msg_empty_koe])
| H_synthe_failed h err d wav size :
    w_Create w (k2k_dic_of cfg) = (h, err) -> h <> null ->
    trim (w_stdin w) <> "" ->
    Forall (converted_ok (codec_of (use_sjis cfg)) h) d ->
    converted_lines d = wanted_lines (w_stdin w) ->
    koe_parts d <> [] ->
    w_Synthe w (codec_of (use_sjis cfg)) (join_pause (koe_parts d)) (speed cfg)
    = (wav, size) ->
    wav = null \/ size <= 0 ->
    halted w cfg 5
      (converting_events w cfg h err d
       ++ [K2k_Release h;
           Tk_Synthe (codec_of (use_sjis cfg)) (join_pause (koe_parts d))
             (speed cfg) wav size;
           Stderr (msg_synthe_failed size)])
| H_open_failed h err d wav size :
    w_Create w (k2k_dic_of cfg) = (h, err) -> h <> null ->
    trim (w_stdin w) <> "" ->
    Forall (converted_ok (codec_of (use_sjis cfg)) h) d ->
    converted_lines d = wanted_lines (w_stdin w) ->
    koe_parts d <> [] ->
    w_Synthe w (codec_of (use_sjis cfg)) (join_pause (koe_parts d)) (speed cfg)
    = (wav, size) ->
    wav <> null -> 0 < size ->
    w_open_out w (out_path cfg) = false ->
    halted w cfg 6
      (converting_events w cfg h err d
       ++ [K2k_Release h;
           Tk_Synthe (codec_of (use_sjis cfg)) (join_pause (koe_parts d))
             (speed cfg) wav size;
           CreateDirectories (w_parent_path w (out_path cfg));
           OpenOut (out_path cfg) false;
           Tk_FreeWave wav;
           Stderr msg_open_failed])
| H_written h err d wav size :
    w_Create w (k2k_dic_of cfg) = (h, err) -> h <> null ->
    trim (w_stdin w) <> "" ->
    Forall (converted_ok (codec_of (use_sjis cfg)) h) d ->
    converted_lines d = wanted_lines (w_stdin w) ->
    koe_parts d <> [] ->
    w_Synthe w (codec_of (use_sjis cfg)) (join_pause (koe_parts d)) (speed cfg)
    = (wav, size) ->
    wav <> null -> 0 < size ->
    w_open_out w (out_path cfg) = true ->
    halted w cfg 0
      (converting_events w cfg h err d
       ++ [K2k_Release h;
           Tk_Synthe (codec_of (use_sjis cfg)) (join_pause (koe_parts d))
             (speed cfg) wav size;
           CreateDirectories (w_parent_path w (out_path cfg));
           OpenOut (out_path cfg) true;
           WriteOut (out_path cfg) wav size;
           Tk_FreeWave wav;
           Stdout (out_path cfg ++ nl)]).

(** *** The runs of the program *)

(** [root] is the value of [aq_root] at line 260. *)
Definition requested_root (w : World) (root : path) : Prop :=
  match get_arg_value (w_args w) "--aquestalk-root" with
  | Some r => root = r
  | None => find_aquestalk_root_from w (w_exe_dir w) = Some root
  end.

Definition help_requested (w : World) : bool :=
  has_flag (w_args w) "--help" || has_flag (w_args w) "-h".

(** The four ways argument handling ends: three returns from [main] and
    the configuration it otherwise leaves, without a trace. *)
Inductive started (w : World) : step Config -> trace -> Prop :=
| S_help :
    help_requested w = true ->
    started w (Halt 0) [Stderr usage_text]
| S_invalid_speed s :
    help_requested w = false ->
    get_arg_value (w_args w) "--speed" = Some s -> Stoi.stoi s = None ->
    started w (Halt 2) [Stderr msg_invalid_speed]
| S_no_root :
    help_requested w = false ->
    get_arg_value (w_args w) "--aquestalk-root" = None ->
    find_aquestalk_root_from w (w_exe_dir w) = None ->
    started w (Halt 2) [Stderr msg_no_root]
| S_config v root :
    help_requested w = false ->
    requested_speed (w_args w) v ->
    requested_root w root ->
    started w
      (Next {|
         voice := value_or (get_arg_value (w_args w) "--voice") "f1";
         use_sjis :=
           use_sjis_of (value_or (get_arg_value (w_args w) "--encoding") "utf8");
         speed := clamp_speed v;
         dev_key := value_or (get_arg_value (w_args w) "--dev-key")
                      (w_getenv w "AQUEST_DEV_KEY");
         usr_key := value_or (get_arg_value (w_args w) "--usr-key")
                      (w_getenv w "AQUEST_USR_KEY");
         out_path := value_or (get_arg_value (w_args w) "--out") (w_temp_wav_path w);
         aq_root := root
       |}) [].

(** A whole run: an early return of argument handling, or a run of the
    pipeline on the configuration it leaves. *)
Inductive ran (w : World) : Z -> trace -> Prop :=
| R_early code t :
    started w (Halt code) t -> ran w code t
| R_pipeline cfg code t :
    started w (Next cfg) [] -> halted w cfg code t -> ran w code t.

(** *** Further observations *)

(** A string that, unless it is empty, neither begins nor ends with a
    character [trim] strips. *)
Definition tight (r : string) : Prop :=
  (forall c, hd_error (Str.chars r) = Some c -> is_space c = false)
  /\ (forall c, Str.back r = Some c -> is_space c = false).

(** An argument that offers no value for [key], wherever it stands: it is
    not [key] itself and does not begin with [key=]. *)
Definition quiet (key : string) (a : string) : Prop :=
  a <> key /\ String.prefix (key ++ "=") a = false.


(** The candidate [find_aquestalk_root_from] tries at [p]. *)
Definition candidate (p : path) : path := p // "aquestalk".

Definition is_free_library (e : event) : bool :=
  match e with FreeLibrary _ => true | _ => false end.

Definition is_read_stdin (e : event) : bool :=
  match e with ReadStdin _ => true | _ => false end.

Definition is_stdout (e : event) : bool :=
  match e with Stdout _ => true | _ => false end.

Definition is_write (e : event) : bool :=
  match e with WriteOut _ _ _ => true | _ => false end.


(** Lines 238-241: the license keys, the command line before the
    environment. *)
Definition requested_dev_key (w : World) : string :=
  value_or (get_arg_value (w_args w) "--dev-key") (w_getenv w "AQUEST_DEV_KEY").

Definition requested_usr_key (w : World) : string :=
  value_or (get_arg_value (w_args w) "--usr-key") (w_getenv w "AQUEST_USR_KEY").

(** * Verification *)

(** ** The helpers on concrete inputs *)

Example trim_strips_both_ends :
  trim (String Str.TAB "  a b " ++ String Str.CR nl) = "a b".
Proof. reflexivity. Qed.

Example trim_keeps_form_feed : trim (String "012" "") = String "012" "".
Proof. reflexivity. Qed.

Example split_lines_crlf :
  split_lines ("a" ++ String Str.CR nl ++ "b" ++ String Str.CR "c" ++ nl)
  = ["a"; "bc"; ""].
Proof. reflexivity. Qed.

Example get_arg_value_forms :
  get_arg_value ["exe"; "--speed"; "120"] "--speed" = Some "120"
  /\ get_arg_value ["exe"; "--speed=120"] "--speed" = Some "120"
  /\ get_arg_value ["exe"; "--speed"] "--speed" = None
  /\ get_arg_value ["exe"; "--speedy=1"; "--speed"; "7"] "--speed" = Some "7".
Proof. repeat split. Qed.

Example stoi_forms :
  Stoi.stoi " +301x" = Some 301
  /\ Stoi.stoi "-7" = Some (-7)
  /\ Stoi.stoi "fast" = None
  /\ Stoi.stoi "" = None
  /\ Stoi.stoi "99999999999" = None.
Proof. repeat split. Qed.

Example success_run :
  run (Sample.two_lines [])
  = (Halt 0,
     [LoadLibraryW (k2k_dll_of Sample.cfg0) 4147;
      LoadLibraryW (tk_dll_of Sample.cfg0) 4148;
      K2k_Create (k2k_dic_of Sample.cfg0) 77 0;
      ReadStdin ("line one" ++ nl ++ "line two");
      K2k_Convert Utf8 77 "line one" 0 ("<line one>" ++ nl);
      K2k_Convert Utf8 77 "line two" 0 ("<line two>" ++ nl);
      K2k_Release 77;
      Tk_Synthe Utf8 "<line one>/<line two>" 100 500 44;
      CreateDirectories "C:\out";
      OpenOut "out.wav" true;
      WriteOut "out.wav" 500 44;
      Tk_FreeWave 500;
      Stdout ("out.wav" ++ nl)]).
Proof. vm_compute. reflexivity. Qed.

Example unwritable_run_releases_buffer :
  exit_code Sample.unwritable = Some 6
  /\ count is_freewave (events Sample.unwritable) = 1%nat
  /\ count is_release (events Sample.unwritable) = 1%nat.
Proof. repeat split. Qed.

(** ** Facts about strings *)

Module StrFacts.

Lemma empty_true (s : string) : Str.empty s = true <-> s = "".
Proof. destruct s; simpl; split; congruence. Qed.

Lemma empty_false (s : string) : Str.empty s = false <-> s <> "".
Proof. destruct s; simpl; split; congruence. Qed.

Lemma append_nil_r (s : string) : s ++ "" = s.
Proof. induction s as [|c s IH]; simpl; [reflexivity | now rewrite IH]. Qed.

Lemma append_assoc (a b c : string) : (a ++ b) ++ c = a ++ (b ++ c).
Proof. induction a as [|x a IH]; simpl; [reflexivity | now rewrite IH]. Qed.

Lemma chars_append (a b : string) :
  Str.chars (a ++ b) = (Str.chars a ++ Str.chars b)%list.
Proof.
  unfold Str.chars.
  induction a as [|x a IH]; simpl; [reflexivity | now rewrite IH].
Qed.

Lemma length_append (a b : string) :
  String.length (a ++ b) = (String.length a + String.length b)%nat.
Proof. induction a as [|x a IH]; simpl; [reflexivity | now rewrite IH]. Qed.

Lemma append_eq_nil (a b : string) : a ++ b = "" -> a = "" /\ b = "".
Proof. destruct a; simpl; [auto | discriminate]. Qed.

(** A non-empty string is its [pop_back] followed by its [back]. *)
Lemma back_pop_back (s : string) (c : ascii) :
  Str.back s = Some c -> s = Str.pop_back s ++ String c "".
Proof.
  induction s as [|x s IH]; [discriminate|].
  destruct s as [|y s'].
  - simpl. intros [= ->]. reflexivity.
  - intros H. change (Str.back (String y s') = Some c) in H.
    change (String x (String y s')
            = String x (Str.pop_back (String y s') ++ String c "")).
    f_equal. apply IH, H.
Qed.

End StrFacts.

(** ** Facts about [trim] *)

Section Trim.

Lemma blank_nil : blank "".
Proof. constructor. Qed.

Lemma blank_append (a b : string) : blank a -> blank b -> blank (a ++ b).
Proof.
  unfold blank. rewrite StrFacts.chars_append. intros Ha Hb.
  apply Forall_app. split; assumption.
Qed.

Lemma trim_front_blank (s : string) : blank s -> trim_front s = "".
Proof.
  induction s as [|c s IH]; simpl; [reflexivity|].
  intros H. inversion H as [|? ? Hc Hs]; subst. rewrite Hc. apply IH, Hs.
Qed.

(** [trim_front] removes a blank prefix and stops at a character that is
    not white space. *)
Lemma trim_front_split (s : string) :
  exists pre, s = pre ++ trim_front s /\ blank pre
    /\ (trim_front s = ""
        \/ exists c r, trim_front s = String c r /\ is_space c = false).
Proof.
  induction s as [|c s (pre & E & Hpre & Hhd)]; simpl.
  - exists "". auto using blank_nil.
  - destruct (is_space c) eqn:Hc.
    + exists (String c pre). simpl. rewrite <- E. repeat split; auto.
      constructor; assumption.
    + exists "". repeat split; [constructor | right; eauto].
Qed.

(** [trim_back] removes a blank suffix, whatever the fuel. *)
Lemma trim_back_split (fuel : nat) : forall s,
  exists suf, s = trim_back fuel s ++ suf /\ blank suf.
Proof.
  induction fuel as [|fuel IH]; intros s; simpl.
  - exists "". rewrite StrFacts.append_nil_r. auto using blank_nil.
  - destruct (Str.back s) as [c|] eqn:Hb.
    + destruct (is_space c) eqn:Hc.
      * destruct (IH (Str.pop_back s)) as (suf & E & Hsuf).
        exists (suf ++ String c ""). split.
        -- rewrite <- StrFacts.append_assoc, <- E.
           apply StrFacts.back_pop_back, Hb.
        -- apply blank_append; [assumption|].
           constructor; [assumption | constructor].
      * exists "". rewrite StrFacts.append_nil_r. auto using blank_nil.
    + exists "". rewrite StrFacts.append_nil_r. auto using blank_nil.
Qed.

Lemma length_pop_back (s : string) :
  String.length (Str.pop_back s) = pred (String.length s).
Proof.
  induction s as [|x s IH]; [reflexivity|].
  destruct s as [|y s']; [reflexivity|].
  change (Str.pop_back (String x (String y s')))
    with (String x (Str.pop_back (String y s'))).
  cbn [String.length]. rewrite IH. reflexivity.
Qed.

(** With as much fuel as the string is long, [trim_back] stops where the
    loop of the source stops: at the empty string or at a last character
    that is not white space. *)
Lemma trim_back_exit (fuel : nat) : forall s c,
  (String.length s <= fuel)%nat ->
  Str.back (trim_back fuel s) = Some c -> is_space c = false.
Proof.
  induction fuel as [|fuel IH]; intros s c Hlen.
  - destruct s; [discriminate | simpl in Hlen; lia].
  - cbn [trim_back]. destruct (Str.back s) as [b|] eqn:Hb.
    + destruct (is_space b) eqn:Hsp.
      * apply IH. rewrite length_pop_back. lia.
      * rewrite Hb. intros [= <-]. assumption.
    + rewrite Hb. discriminate.
Qed.

(** What [trim] returns neither ends nor begins with white space. *)
Lemma trim_ends (s : string) :
  (forall c, Str.back (trim s) = Some c -> is_space c = false)
  /\ (forall c, hd_error (Str.chars (trim s)) = Some c -> is_space c = false).
Proof.
  unfold trim. split.
  - intros c. apply trim_back_exit. apply le_n.
  - intros c Hc.
    destruct (trim_front_split s) as (pre & _ & _ & Hhd).
    destruct (trim_back_split (String.length (trim_front s)) (trim_front s))
      as (suf & E & _).
    destruct Hhd as [Hnil | (x & r & Hx & Hsp)].
    + rewrite Hnil in Hc. discriminate.
    + rewrite Hx in E, Hc.
      destruct (trim_back (String.length (String x r)) (String x r)) as [|y r'];
        [discriminate|].
      injection E as <- _. injection Hc as <-. assumption.
Qed.

Lemma trim_blank (s : string) : blank s -> trim s = "".
Proof. intros H. unfold trim. rewrite (trim_front_blank s H). reflexivity. Qed.

Lemma trim_nil_blank (s : string) : trim s = "" -> blank s.
Proof.
  unfold trim. intros H.
  destruct (trim_front_split s) as (pre & E & Hpre & Hhd).
  destruct (trim_back_split (String.length (trim_front s)) (trim_front s))
    as (suf & E' & Hsuf).
  rewrite H in E'. simpl in E'.
  destruct Hhd as [Hnil | (c & r & Hcr & Hc)].
  - rewrite E, Hnil, StrFacts.append_nil_r. assumption.
  - rewrite Hcr in E'. subst suf.
    inversion Hsuf as [|? ? Hc' _]; subst. congruence.
Qed.

(** The lines [trim] empties are the white-space lines. *)
Lemma trim_nil_iff (s : string) : trim s = "" <-> blank s.
Proof. split; [apply trim_nil_blank | apply trim_blank]. Qed.

End Trim.

(** ** Properties of [split_lines] *)

(** From here on [++] is the append of lists and traces. *)
Local Open Scope list_scope.

Section SplitLines.

Lemma clean_nil : clean "".
Proof. split; simpl; tauto. Qed.

Lemma clean_push_back (l : string) (c : ascii) :
  clean l -> Ascii.eqb c Str.CR = false -> Ascii.eqb c Str.LF = false ->
  clean (Str.push_back l c).
Proof.
  intros [Hlf Hcr] Ecr Elf. apply Ascii.eqb_neq in Ecr, Elf.
  unfold clean, Str.push_back. rewrite StrFacts.chars_append. simpl.
  split; rewrite in_app_iff; simpl; intros [H|[H|[]]]; auto.
Qed.

Lemma split_lines_loop_length (s : string) : forall out cur,
  List.length (split_lines_loop s out cur)
  = (List.length out + 1 + count_char Str.LF s)%nat.
Proof.
  induction s as [|c s IH]; intros out cur; simpl.
  - rewrite length_app. simpl. unfold count_char. simpl. lia.
  - unfold count_char in *. simpl. rewrite (Ascii.eqb_sym Str.LF c).
    destruct (Ascii.eqb c Str.CR) eqn:Ecr.
    + apply Ascii.eqb_eq in Ecr. subst c.
      replace (Ascii.eqb Str.CR Str.LF) with false by reflexivity. apply IH.
    + destruct (Ascii.eqb c Str.LF) eqn:Elf.
      * rewrite IH, length_app. simpl. lia.
      * apply IH.
Qed.

Lemma split_lines_loop_clean (s : string) : forall out cur,
  Forall clean out -> clean cur -> Forall clean (split_lines_loop s out cur).
Proof.
  induction s as [|c s IH]; intros out cur Hout Hcur; simpl.
  - apply Forall_app. split; [assumption | constructor; [assumption | constructor]].
  - destruct (Ascii.eqb c Str.CR) eqn:Ecr; [now apply IH|].
    destruct (Ascii.eqb c Str.LF) eqn:Elf.
    + apply IH; [|apply clean_nil].
      apply Forall_app. split; [assumption | constructor; [assumption | constructor]].
    + apply IH; [assumption | now apply clean_push_back].
Qed.

Lemma split_lines_loop_chars (s : string) : forall out cur,
  List.concat (map Str.chars (split_lines_loop s out cur))
  = (List.concat (map Str.chars out) ++ Str.chars cur
     ++ filter kept (Str.chars s))%list.
Proof.
  induction s as [|c s IH]; intros out cur; simpl.
  - rewrite map_app, concat_app. simpl. reflexivity.
  - unfold kept at 1.
    destruct (Ascii.eqb c Str.CR) eqn:Ecr; simpl; [apply IH|].
    destruct (Ascii.eqb c Str.LF) eqn:Elf; simpl.
    + rewrite IH, map_app, concat_app. simpl.
      rewrite app_nil_r, <- app_assoc. reflexivity.
    + rewrite IH. unfold Str.push_back. rewrite StrFacts.chars_append. simpl.
      rewrite <- app_assoc. reflexivity.
Qed.

(** Carriage returns never influence the result. *)
Lemma split_lines_loop_drop_cr (s : string) : forall out cur,
  split_lines_loop s out cur = split_lines_loop (drop_cr s) out cur.
Proof.
  unfold drop_cr.
  induction s as [|c s IH]; intros out cur; simpl; [reflexivity|].
  destruct (Ascii.eqb c Str.CR) eqn:Ecr; simpl; [apply IH|].
  rewrite Ecr. destruct (Ascii.eqb c Str.LF); apply IH.
Qed.

Lemma drop_cr_free (s : string) : ~ In Str.CR (Str.chars (drop_cr s)).
Proof.
  unfold drop_cr, Str.chars. rewrite list_ascii_of_string_of_list_ascii.
  intros H. apply filter_In in H. destruct H as [_ H].
  rewrite Ascii.eqb_refl in H. discriminate.
Qed.

(** C10: [split_lines] always returns at least one line, one more than
    the input has line feeds, and one empty line for the empty string;
    no returned line contains a line feed or a carriage return; the
    lines, read one after the other, are the input without its line
    feeds and carriage returns; and a carriage return is dropped
    wherever it stands, the result being that of the input with all
    carriage returns taken out. *)
Theorem split_lines_shape (s : string) :
  (1 <= List.length (split_lines s))%nat
  /\ List.length (split_lines s) = (1 + count_char Str.LF s)%nat
  /\ split_lines "" = [""]
  /\ Forall clean (split_lines s)
  /\ List.concat (map Str.chars (split_lines s)) = filter kept (Str.chars s)
  /\ split_lines s = split_lines (drop_cr s)
  /\ ~ In Str.CR (Str.chars (drop_cr s)).
Proof.
  unfold split_lines.
  split; [|split; [|split; [|split; [|split; [|split]]]]].
  - rewrite split_lines_loop_length. lia.
  - rewrite split_lines_loop_length. reflexivity.
  - reflexivity.
  - apply split_lines_loop_clean; [constructor | apply clean_nil].
  - apply split_lines_loop_chars.
  - apply split_lines_loop_drop_cr.
  - apply drop_cr_free.
Qed.

End SplitLines.

(** ** The capability loaders *)

Section LoaderFacts.

Variable w : World.

Lemma is_null_true (p : ptr) : is_null p = true <-> p = null.
Proof. unfold is_null. apply Z.eqb_eq. Qed.

Lemma is_null_false (p : ptr) : is_null p = false <-> p <> null.
Proof. unfold is_null. apply Z.eqb_neq. Qed.

(** One of five pointers is null: name the symbol it came from. *)
Lemma some_null (m : ptr) (a b c d e : string) :
  is_null (w_GetProcAddress w m a) || is_null (w_GetProcAddress w m b)
  || is_null (w_GetProcAddress w m c) || is_null (w_GetProcAddress w m d)
  || is_null (w_GetProcAddress w m e) = true ->
  exists missing, In missing [a; b; c; d; e]
    /\ w_GetProcAddress w m missing = null.
Proof.
  rewrite !orb_true_iff, !is_null_true.
  intros [[[[H|H]|H]|H]|H]; eexists; (split; [|exact H]); simpl; auto 6.
Qed.

Lemma none_null (p1 p2 p3 p4 p5 : ptr) :
  is_null p1 || is_null p2 || is_null p3 || is_null p4 || is_null p5 = false ->
  p1 <> null /\ p2 <> null /\ p3 <> null /\ p4 <> null /\ p5 <> null.
Proof. rewrite !orb_false_iff, !is_null_false. tauto. Qed.

Lemma load_kanji2koe_cases (dll : path) (t : trace) :
  match load_kanji2koe w dll t with
  | (Next (Some api), t') =>
      api = k2k_bind w (w_LoadLibraryW w dll)
      /\ k2k_resolved api
      /\ t' = (t ++ [LoadLibraryW dll (k2k_mod api)])%list
  | (Next None, t') => load_refused w k2k_symbols dll t t'
  | (Halt _, _) => False
  end.
Proof.
  unfold load_kanji2koe, load_refused, bind, emit, ret.
  cbn [k2k_bind k2k_mod k2k_Create k2k_Release k2k_ConvertUtf8 k2k_ConvertSjis
       k2k_SetDevKey].
  destruct (is_null (w_LoadLibraryW w dll)) eqn:Hm.
  - left. apply is_null_true in Hm. auto.
  - apply is_null_false in Hm.
    match goal with |- context [if ?c then _ else _] => destruct c eqn:Hs end.
    + right. split; [assumption|]. split; [|rewrite <- app_assoc; reflexivity].
      apply some_null, Hs.
    + apply none_null in Hs. unfold k2k_resolved. cbn. tauto.
Qed.

Lemma load_aquestalk_cases (dll : path) (t : trace) :
  match load_aquestalk w dll t with
  | (Next (Some api), t') =>
      api = tk_bind w (w_LoadLibraryW w dll)
      /\ tk_resolved api
      /\ t' = (t ++ [LoadLibraryW dll (tk_mod api)])%list
  | (Next None, t') => load_refused w tk_symbols dll t t'
  | (Halt _, _) => False
  end.
Proof.
  unfold load_aquestalk, load_refused, bind, emit, ret.
  cbn [tk_bind tk_mod tk_Synthe tk_SyntheUtf8 tk_FreeWave tk_SetDevKey
       tk_SetUsrKey].
  destruct (is_null (w_LoadLibraryW w dll)) eqn:Hm.
  - left. apply is_null_true in Hm. auto.
  - apply is_null_false in Hm.
    match goal with |- context [if ?c then _ else _] => destruct c eqn:Hs end.
    + right. split; [assumption|]. split; [|rewrite <- app_assoc; reflexivity].
      apply some_null, Hs.
    + apply none_null in Hs. unfold tk_resolved. cbn. tauto.
Qed.

(** A symbol of the list that does not resolve is one of the five
    members, null. *)
Lemma k2k_unresolved (m : ptr) (missing : string) :
  In missing k2k_symbols -> w_GetProcAddress w m missing = null ->
  ~ k2k_resolved (k2k_bind w m).
Proof.
  unfold k2k_resolved, k2k_bind. cbn.
  intros [<-|[<-|[<-|[<-|[<-|[]]]]]] E; rewrite E; tauto.
Qed.

Lemma tk_unresolved (m : ptr) (missing : string) :
  In missing tk_symbols -> w_GetProcAddress w m missing = null ->
  ~ tk_resolved (tk_bind w m).
Proof.
  unfold tk_resolved, tk_bind. cbn.
  intros [<-|[<-|[<-|[<-|[<-|[]]]]]] E; rewrite E; tauto.
Qed.

End LoaderFacts.

(** C8: each loader ends in one of two ways, and never leaves [main].
    Either it returns the capability set bound from the loaded module,
    in which the module and every required entry point are non-null,
    having done nothing but load the library; or it returns no result,
    and then either the library did not load, or it loaded, a required
    symbol did not resolve, and the very module that was loaded was
    unloaded by [FreeLibrary] before the loader returned.  In
    particular, a library that loads but lacks a required symbol always
    ends with no result and the library unloaded. *)
Theorem loaders_all_or_nothing (w : World) (dll : path) (t : trace) :
  (match load_kanji2koe w dll t with
   | (Next (Some api), t') =>
       api = k2k_bind w (w_LoadLibraryW w dll)
       /\ k2k_resolved api
       /\ t' = (t ++ [LoadLibraryW dll (k2k_mod api)])%list
   | (Next None, t') => load_refused w k2k_symbols dll t t'
   | (Halt _, _) => False
   end)
  /\ (match load_aquestalk w dll t with
      | (Next (Some api), t') =>
          api = tk_bind w (w_LoadLibraryW w dll)
          /\ tk_resolved api
          /\ t' = (t ++ [LoadLibraryW dll (tk_mod api)])%list
      | (Next None, t') => load_refused w tk_symbols dll t t'
      | (Halt _, _) => False
      end)
  /\ (forall missing,
        w_LoadLibraryW w dll <> null ->
        w_GetProcAddress w (w_LoadLibraryW w dll) missing = null ->
        (In missing k2k_symbols ->
         load_kanji2koe w dll t
         = (Next None,
            (t ++ [LoadLibraryW dll (w_LoadLibraryW w dll);
                   FreeLibrary (w_LoadLibraryW w dll)])%list))
        /\ (In missing tk_symbols ->
            load_aquestalk w dll t
            = (Next None,
               (t ++ [LoadLibraryW dll (w_LoadLibraryW w dll);
                      FreeLibrary (w_LoadLibraryW w dll)])%list))).
Proof.
  pose proof (load_kanji2koe_cases w dll t) as Hk.
  pose proof (load_aquestalk_cases w dll t) as Ht.
  split; [exact Hk|]. split; [exact Ht|].
  intros missing Hm Hnull. split; intros Hin.
  - destruct (load_kanji2koe w dll t) as [[[api|]|c] t']; [| |contradiction].
    + destruct Hk as (-> & Hres & _).
      exfalso. exact (k2k_unresolved w _ missing Hin Hnull Hres).
    + destruct Hk as [[Hz _] | (_ & _ & ->)]; [contradiction | reflexivity].
  - destruct (load_aquestalk w dll t) as [[[api|]|c] t']; [| |contradiction].
    + destruct Ht as (-> & Hres & _).
      exfalso. exact (tk_unresolved w _ missing Hin Hnull Hres).
    + destruct Ht as [[Hz _] | (_ & _ & ->)]; [contradiction | reflexivity].
Qed.

Lemma loaders_all_or_nothing_witness :
  w_LoadLibraryW Sample.usr_key_unbound "AquesTalk.dll" <> null
  /\ w_GetProcAddress Sample.usr_key_unbound
       (w_LoadLibraryW Sample.usr_key_unbound "AquesTalk.dll")
       "AquesTalk_SetUsrKey" = null
  /\ load_aquestalk Sample.usr_key_unbound "AquesTalk.dll" []
     = (Next None, [LoadLibraryW "AquesTalk.dll" 4109; FreeLibrary 4109])
  /\ exit_code Sample.usr_key_unbound = Some 3.
Proof.
  assert (Hm : w_LoadLibraryW Sample.usr_key_unbound "AquesTalk.dll" <> null)
    by discriminate.
  assert (Hnull : w_GetProcAddress Sample.usr_key_unbound
                    (w_LoadLibraryW Sample.usr_key_unbound "AquesTalk.dll")
                    "AquesTalk_SetUsrKey" = null) by reflexivity.
  assert (Hin : In "AquesTalk_SetUsrKey" tk_symbols) by (simpl; auto 6).
  destruct (loaders_all_or_nothing Sample.usr_key_unbound "AquesTalk.dll" [])
    as (_ & _ & Hmissing).
  destruct (Hmissing "AquesTalk_SetUsrKey" Hm Hnull) as (_ & Htk).
  split; [exact Hm|]. split; [exact Hnull|].
  split; [exact (Htk Hin) | reflexivity].
Defined.

(** ** The conversion loop *)

Section LoopFacts.

Variable w : World.
Variable sjis : bool.
Variable h : ptr.

Lemma koe_parts_app (a b : trace) : koe_parts (a ++ b) = koe_parts a ++ koe_parts b.
Proof. apply flat_map_app. Qed.


Lemma koe_parts_nonempty (t : trace) : Forall (fun p => p <> "") (koe_parts t).
Proof.
  induction t as [|e t IH]; simpl; [constructor|].
  apply Forall_app. split; [|assumption].
  destruct e; try constructor.
  destruct (rc =? 0); simpl; [|constructor].
  destruct (Str.empty (trim koe)) eqn:E; simpl; constructor; [|constructor].
  apply StrFacts.empty_false, E.
Qed.

(** The loop either runs to its end, having appended only successful
    conversions, one per line it does not skip, and having extended the
    stream by their parts; or it returns 4 from [main] right after the
    first conversion that fails, the session released. *)
Lemma convert_lines_spec (lines : list string) : forall koe_all t,
  match convert_lines w sjis h lines koe_all t with
  | (Next koe_all', t') =>
      exists d, t' = t ++ d
        /\ Forall (converted_ok (codec_of sjis) h) d
        /\ converted_lines d
           = filter (fun l => negb (Str.empty l)) (map trim lines)
        /\ koe_all' = fold_left add_part (koe_parts d) koe_all
  | (Halt code, t') =>
      code = 4
      /\ exists d line rc koe,
           t' = t ++ d ++ [K2k_Convert (codec_of sjis) h line rc koe;
                           Stderr (msg_convert_failed rc); K2k_Release h]
           /\ Forall (converted_ok (codec_of sjis) h) d
           /\ rc <> 0
  end.
Proof.
  induction lines as [|line_raw rest IH]; intros koe_all t.
  - simpl. exists []. rewrite app_nil_r. repeat split. constructor.
  - cbn [convert_lines map filter].
    destruct (Str.empty (trim line_raw)) eqn:Eline; cbn [negb]; [apply IH|].
    unfold bind at 1, history.
    destruct (w_Convert w (codec_of sjis) t h (trim line_raw)) as [rc koe].
    unfold bind at 1, emit.
    destruct (rc =? 0) eqn:Erc; cbn [negb].
    + apply Z.eqb_eq in Erc. subst rc.
      assert (Hok : converted_ok (codec_of sjis) h
                      (K2k_Convert (codec_of sjis) h (trim line_raw) 0 koe)).
      { exists (trim line_raw), koe. split; [reflexivity|].
        apply StrFacts.empty_false, Eline. }
      destruct (Str.empty (trim koe)) eqn:Ekoe.
      * specialize (IH koe_all (t ++ [K2k_Convert (codec_of sjis) h (trim line_raw) 0 koe])).
        destruct (convert_lines w sjis h rest koe_all _) as [[koe'|code] t'].
        -- destruct IH as (d & -> & Hd & Hl & ->).
           exists (K2k_Convert (codec_of sjis) h (trim line_raw) 0 koe :: d).
           rewrite <- app_assoc. simpl. rewrite Ekoe, Hl. simpl.
           repeat split. constructor; assumption.
        -- destruct IH as (-> & d & line & rc & k & -> & Hd & Hrc).
           split; [reflexivity|].
           exists (K2k_Convert (codec_of sjis) h (trim line_raw) 0 koe :: d), line, rc, k.
           rewrite <- app_assoc. simpl. repeat split; [|assumption].
           constructor; assumption.
      * specialize (IH (add_part koe_all (trim koe))
                       (t ++ [K2k_Convert (codec_of sjis) h (trim line_raw) 0 koe])).
        change (convert_lines w sjis h rest
                  ((if negb (Str.empty koe_all) then koe_all ++ "/" else koe_all)
                   ++ trim koe))
          with (convert_lines w sjis h rest (add_part koe_all (trim koe))).
        destruct (convert_lines w sjis h rest (add_part koe_all (trim koe)) _)
          as [[koe'|code] t'].
        -- destruct IH as (d & -> & Hd & Hl & ->).
           exists (K2k_Convert (codec_of sjis) h (trim line_raw) 0 koe :: d).
           rewrite <- app_assoc. simpl. rewrite Ekoe, Hl. simpl.
           repeat split. constructor; assumption.
        -- destruct IH as (-> & d & line & rc & k & -> & Hd & Hrc).
           split; [reflexivity|].
           exists (K2k_Convert (codec_of sjis) h (trim line_raw) 0 koe :: d), line, rc, k.
           rewrite <- app_assoc. simpl. repeat split; [|assumption].
           constructor; assumption.
    + apply Z.eqb_neq in Erc.
      unfold bind, cerr, emit, halt. split; [reflexivity|].
      exists [], (trim line_raw), rc, koe. simpl.
      rewrite <- !app_assoc. simpl. repeat split; [constructor | assumption].
Qed.

(** Starting from a non-empty stream, the loop's way of adding parts
    is joining with the pause separator. *)
Lemma add_parts_join (parts : list string) : forall koe_all,
  koe_all <> "" -> Forall (fun p => p <> "") parts ->
  fold_left add_part parts koe_all = join_pause (koe_all :: parts).
Proof.
  induction parts as [|p ps IH]; intros koe_all Hk Hps; [reflexivity|].
  inversion Hps as [|? ? Hp Hps']; subst.
  cbn [fold_left]. rewrite IH; [|unfold add_part|assumption].
  - unfold add_part. apply StrFacts.empty_false in Hk. rewrite Hk. cbn [negb].
    unfold join_pause. destruct ps as [|q r]; cbn [String.concat];
      rewrite !StrFacts.append_assoc; reflexivity.
  - intros E. apply StrFacts.append_eq_nil in E. tauto.
Qed.

Lemma assemble_join (parts : list string) :
  Forall (fun p => p <> "") parts ->
  fold_left add_part parts "" = join_pause parts.
Proof.
  destruct parts as [|p ps]; [reflexivity|].
  intros H. inversion H as [|? ? Hp Hps]; subst.
  cbn [fold_left]. apply add_parts_join; assumption.
Qed.

End LoopFacts.

(** ** The runs of [pipeline] *)

Section PipelineFacts.

Variable w : World.
Variable cfg : Config.

(** Lines 286-292 append [key_events] and go on. *)
Lemma keys_pushed {A} (k : Prog A) (t : trace) :
  ((if negb (Str.empty (dev_key cfg))
    then emit (K2k_SetDevKey (dev_key cfg)) ;; emit (Tk_SetDevKey (dev_key cfg))
    else ret tt) ;;
   (if negb (Str.empty (usr_key cfg))
    then emit (Tk_SetUsrKey (usr_key cfg))
    else ret tt) ;;
   k)%prog t
  = k (t ++ key_events cfg).
Proof.
  unfold key_events, bind, emit, ret.
  destruct (negb (Str.empty (dev_key cfg))), (negb (Str.empty (usr_key cfg)));
    cbn; rewrite <- ?app_assoc, ?app_nil_r; reflexivity.
Qed.

Lemma converting_events_app (h : ptr) (err : Z) (d rest : trace) :
  (session_events w cfg h err ++ [ReadStdin (w_stdin w)]) ++ d ++ rest
  = converting_events w cfg h err d ++ rest.
Proof. unfold converting_events. rewrite <- !app_assoc. reflexivity. Qed.

(** [pipeline] always returns from [main], in one of the ten ways of
    [halted]. *)
Lemma pipeline_halted :
  exists code t, pipeline w cfg [] = (Halt code, t) /\ halted w cfg code t.
Proof.
  unfold pipeline.
  destruct (negb (w_exists w (k2k_dll_of cfg)) || negb (w_exists w (k2k_dic_of cfg))
            || negb (w_exists w (tk_dll_of cfg))) eqn:Hfiles.
  { do 2 eexists. split; [reflexivity|]. apply H_missing_files, Hfiles. }
  unfold bind at 1.
  pose proof (load_kanji2koe_cases w (k2k_dll_of cfg) []) as Hk.
  destruct (load_kanji2koe w (k2k_dll_of cfg) []) as [[[k2k|]|c] t1];
    [| |contradiction].
  2:{ do 2 eexists. split; [reflexivity|]. apply H_k2k_not_loaded, Hk. }
  destruct Hk as (-> & _ & ->). cbn [k2k_bind k2k_mod app].
  unfold bind at 1.
  pose proof (load_aquestalk_cases w (tk_dll_of cfg)
                [LoadLibraryW (k2k_dll_of cfg) (w_LoadLibraryW w (k2k_dll_of cfg))]) as Ht.
  destruct (load_aquestalk w (tk_dll_of cfg) _) as [[[tk|]|c] t2];
    [| |contradiction].
  2:{ do 2 eexists. split; [reflexivity|]. apply H_tk_not_loaded, Ht. }
  destruct Ht as (-> & _ & ->). cbn [tk_bind tk_mod app].
  rewrite keys_pushed.
  destruct (w_Create w (k2k_dic_of cfg)) as [h err] eqn:Hcreate.
  unfold bind at 1, emit at 1.
  rewrite <- app_assoc.
  change ([LoadLibraryW (k2k_dll_of cfg) (w_LoadLibraryW w (k2k_dll_of cfg));
           LoadLibraryW (tk_dll_of cfg) (w_LoadLibraryW w (tk_dll_of cfg))]
          ++ key_events cfg ++ [K2k_Create (k2k_dic_of cfg) h err])
    with (session_events w cfg h err).
  destruct (is_null h) eqn:Hh.
  { apply is_null_true in Hh. do 2 eexists. split; [reflexivity|].
    apply H_create_failed; assumption. }
  apply is_null_false in Hh.
  unfold bind at 1, emit at 1.
  destruct (Str.empty (trim (w_stdin w))) eqn:Hin.
  { apply StrFacts.empty_true in Hin. do 2 eexists. split.
    - unfold bind, cerr, emit, halt. rewrite <- !app_assoc. reflexivity.
    - apply H_no_input; assumption. }
  apply StrFacts.empty_false in Hin.
  unfold bind at 1.
  pose proof (convert_lines_spec w (use_sjis cfg) h (split_lines (trim (w_stdin w))) ""
                (session_events w cfg h err ++ [ReadStdin (w_stdin w)])) as Hloop.
  destruct (convert_lines w (use_sjis cfg) h _ "" _) as [[koe_all|code] t3].
  2:{ destruct Hloop as (-> & d & line & rc & koe & -> & Hd & Hrc).
      do 2 eexists. split; [reflexivity|].
      rewrite converting_events_app.
      apply H_convert_failed; assumption. }
  destruct Hloop as (d & -> & Hd & Hl & ->).
  rewrite <- app_assoc. cbn [app].
  change (session_events w cfg h err ++ ReadStdin (w_stdin w) :: d)
    with (converting_events w cfg h err d).
  rewrite assemble_join by apply koe_parts_nonempty.
  unfold bind at 1, emit at 1.
  destruct (Str.empty (join_pause (koe_parts d))) eqn:Hkoe.
  { do 2 eexists. split.
    - unfold bind, cerr, emit, halt. rewrite <- !app_assoc. reflexivity.
    - apply H_empty_koe; try assumption.
      apply StrFacts.empty_true in Hkoe.
      pose proof (koe_parts_nonempty d) as Hne.
      destruct (koe_parts d) as [|p ps]; [reflexivity|exfalso].
      inversion Hne as [|? ? Hp _]; subst. apply Hp.
      unfold join_pause in Hkoe. destruct ps; cbn in Hkoe; [assumption|].
      apply StrFacts.append_eq_nil in Hkoe. tauto. }
  assert (Hparts : koe_parts d <> []).
  { intros E. rewrite E in Hkoe. discriminate. }
  destruct (w_Synthe w (codec_of (use_sjis cfg)) (join_pause (koe_parts d)) (speed cfg))
    as [wav size] eqn:Hsyn.
  unfold bind at 1, emit at 1.
  destruct (is_null wav || (size <=? 0)) eqn:Hfail.
  { do 2 eexists. split.
    - unfold bind, cerr, emit, halt. rewrite <- !app_assoc. reflexivity.
    - apply H_synthe_failed; try assumption.
      apply orb_true_iff in Hfail. rewrite is_null_true, Z.leb_le in Hfail.
      assumption. }
  apply orb_false_iff in Hfail. rewrite is_null_false, Z.leb_gt in Hfail.
  destruct Hfail as [Hwav Hsize].
  unfold bind at 1, emit at 1. unfold bind at 1, emit at 1.
  destruct (w_open_out w (out_path cfg)) eqn:Hopen; cbn [negb].
  - do 2 eexists. split.
    + unfold bind, cerr, emit, halt. rewrite <- !app_assoc. reflexivity.
    + apply H_written; assumption.
  - do 2 eexists. split.
    + unfold bind, cerr, emit, halt. rewrite <- !app_assoc. reflexivity.
    + apply H_open_failed; assumption.
Qed.

End PipelineFacts.

(** ** The runs of [main] *)

Section MainFacts.

Variable w : World.

Lemma parse_config_started :
  exists r t, parse_config w [] = (r, t) /\ started w r t.
Proof.
  unfold parse_config. fold (help_requested w).
  destruct (help_requested w) eqn:Hhelp.
  { do 2 eexists. split; [reflexivity|]. apply S_help, Hhelp. }
  unfold bind at 1.
  destruct (get_arg_value (w_args w) "--speed") as [s|] eqn:Hs.
  - destruct (Stoi.stoi s) as [v|] eqn:Hv.
    + cbn [ret]. unfold bind at 1.
      destruct (get_arg_value (w_args w) "--aquestalk-root") as [r|] eqn:Hr.
      * do 2 eexists. split; [reflexivity|].
        apply (S_config w v r); unfold requested_speed, requested_root;
          rewrite ?Hs, ?Hr; auto.
      * destruct (find_aquestalk_root_from w (w_exe_dir w)) as [found|] eqn:Hf.
        -- do 2 eexists. split; [reflexivity|].
           apply (S_config w v found); unfold requested_speed, requested_root;
             rewrite ?Hs, ?Hr; auto.
        -- do 2 eexists. split; [reflexivity|]. apply S_no_root; assumption.
    + do 2 eexists. split; [reflexivity|]. apply (S_invalid_speed w s); assumption.
  - cbn [ret]. unfold bind at 1.
    destruct (get_arg_value (w_args w) "--aquestalk-root") as [r|] eqn:Hr.
    + do 2 eexists. split; [reflexivity|].
      apply (S_config w 100 r); unfold requested_speed, requested_root;
        rewrite ?Hs, ?Hr; auto.
    + destruct (find_aquestalk_root_from w (w_exe_dir w)) as [found|] eqn:Hf.
      * do 2 eexists. split; [reflexivity|].
        apply (S_config w 100 found); unfold requested_speed, requested_root;
          rewrite ?Hs, ?Hr; auto.
      * do 2 eexists. split; [reflexivity|]. apply S_no_root; assumption.
Qed.

(** Argument handling that goes on leaves the trace empty. *)
Lemma started_next (cfg : Config) (t : trace) : started w (Next cfg) t -> t = [].
Proof. intros H. inversion H. reflexivity. Qed.

(** Every run of the program returns an exit code, in one of the ways
    of [ran]. *)
Lemma run_ran : exists code t, run w = (Halt code, t) /\ ran w code t.
Proof.
  unfold run, main, bind.
  destruct parse_config_started as (r & t & E & Hs). rewrite E.
  destruct r as [cfg|code].
  - pose proof (started_next cfg t Hs) as ->.
    destruct (pipeline_halted w cfg) as (code & t' & E' & Hh).
    exists code, t'. split; [assumption|]. apply (R_pipeline w cfg); assumption.
  - exists code, t. split; [reflexivity|]. apply R_early, Hs.
Qed.

Lemma events_ran : exists code, exit_code w = Some code /\ ran w code (events w).
Proof.
  destruct run_ran as (code & t & E & R).
  exists code. unfold exit_code, events. rewrite E. auto.
Qed.

End MainFacts.

(** ** Counting and finding events *)

Section TraceFacts.

Lemma count_app (p : event -> bool) (a b : trace) :
  count p (a ++ b) = (count p a + count p b)%nat.
Proof. unfold count. rewrite filter_app, length_app. reflexivity. Qed.

Lemma count_cons (p : event -> bool) (e : event) (t : trace) :
  count p (e :: t) = ((if p e then 1 else 0) + count p t)%nat.
Proof. unfold count. simpl. destruct (p e); reflexivity. Qed.

Lemma count_zero (p : event -> bool) (t : trace) :
  (forall e, In e t -> p e = false) -> count p t = 0%nat.
Proof.
  induction t as [|e t IH]; intros H; [reflexivity|].
  rewrite count_cons, (H e (or_introl eq_refl)), IH; [reflexivity|].
  intros e' He'. apply H. right. assumption.
Qed.

Lemma count_zero_in (p : event -> bool) (t : trace) (e : event) :
  count p t = 0%nat -> In e t -> p e = false.
Proof.
  induction t as [|x t IH]; [contradiction|].
  rewrite count_cons. intros Hc [->|Hin].
  - destruct (p e); [discriminate | reflexivity].
  - apply IH; [lia | assumption].
Qed.

Lemma in_key_events (cfg : Config) (e : event) :
  In e (key_events cfg) -> is_key e = true.
Proof.
  unfold key_events.
  destruct (negb (Str.empty (dev_key cfg))), (negb (Str.empty (usr_key cfg)));
    simpl; intuition (subst; reflexivity).
Qed.

Lemma count_key_events (p : event -> bool) (cfg : Config) :
  (forall e, is_key e = true -> p e = false) -> count p (key_events cfg) = 0%nat.
Proof. intros H. apply count_zero. intros e He. apply H, (in_key_events cfg), He. Qed.

Lemma in_converted (c : codec) (h : ptr) (d : trace) (e : event) :
  Forall (converted_ok c h) d -> In e d ->
  exists line koe, e = K2k_Convert c h line 0 koe /\ line <> "".
Proof. intros H He. exact (proj1 (Forall_forall _ _) H e He). Qed.

Lemma count_converted (p : event -> bool) (c : codec) (h : ptr) (d : trace) :
  Forall (converted_ok c h) d ->
  (forall line koe, p (K2k_Convert c h line 0 koe) = false) ->
  count p d = 0%nat.
Proof.
  intros Hd Hp. apply count_zero. intros e He.
  destruct (in_converted c h d e Hd He) as (line & koe & -> & _). apply Hp.
Qed.

(** What a loader that gives up leaves in the trace. *)
Lemma load_refused_events (w : World) (symbols : list string) (dll : path)
    (t t' : trace) :
  load_refused w symbols dll t t' ->
  exists m, t' = t ++ [LoadLibraryW dll m]
            \/ t' = t ++ [LoadLibraryW dll m; FreeLibrary m].
Proof.
  intros [[_ ->] | (_ & _ & ->)]; eexists; [left | right]; reflexivity.
Qed.

End TraceFacts.

(** Rewrites a count over one of the traces of [halted] into a sum of
    counts over its pieces, and evaluates the pieces that are explicit. *)
Ltac count_pieces :=
  unfold converting_events, session_events;
  repeat rewrite count_app;
  repeat rewrite count_cons;
  cbn [is_load is_create is_release is_convert is_synthe is_freewave
       touches_output count filter List.length Nat.add].

(** Splits membership in one of the traces of [halted] into membership in
    its pieces. *)
Ltac in_pieces H :=
  unfold converting_events, session_events in H;
  repeat (rewrite in_app_iff in H || cbn [In] in H).

(** The ten cases of a [halted] run, with the names used in its
    definition. *)
Ltac halted_cases H :=
  destruct H as
    [ Hfiles
    | t1 Hload
    | t2 Hload
    | h err Hcreate Hh
    | h err Hcreate Hh Hin
    | h err d line rc koe Hcreate Hh Hin Hd Hrc
    | h err d Hcreate Hh Hin Hd Hlines Hparts
    | h err d wav size Hcreate Hh Hin Hd Hlines Hparts Hsyn Hfail
    | h err d wav size Hcreate Hh Hin Hd Hlines Hparts Hsyn Hwav Hsize Hopen
    | h err d wav size Hcreate Hh Hin Hd Hlines Hparts Hsyn Hwav Hsize Hopen ].

(** ** The session: created at most once, released with it *)

Section SessionFacts.

Variable w : World.

(** A run of the pipeline either never reaches [AqKanji2Koe_Create], and
    then releases nothing, or calls it exactly once; a null session is
    never released, any other exactly once, afterwards. *)
Lemma halted_session (cfg : Config) (code : Z) (t : trace) :
  halted w cfg code t ->
  (count is_create t = 0 /\ count is_release t = 0)%nat
  \/ exists pre dic h err post,
       t = pre ++ K2k_Create dic h err :: post
       /\ (count is_create pre = 0 /\ count is_create post = 0
           /\ count is_release pre = 0)%nat
       /\ ((h = null /\ count is_release post = 0%nat)
           \/ (h <> null /\ count is_release post = 1%nat
               /\ In (K2k_Release h) post)).
Proof.
  intros H. halted_cases H.
  1:{ left. split; reflexivity. }
  1,2: left; apply load_refused_events in Hload;
    destruct Hload as (m & [-> | ->]); split; reflexivity.
  all: right;
    exists (LoadLibraryW (k2k_dll_of cfg) (w_LoadLibraryW w (k2k_dll_of cfg))
            :: LoadLibraryW (tk_dll_of cfg) (w_LoadLibraryW w (tk_dll_of cfg))
            :: key_events cfg), (k2k_dic_of cfg), h, err;
    eexists;
    (split; [unfold converting_events, session_events;
             rewrite <- !app_assoc; reflexivity|]);
    (split; [count_pieces;
             rewrite ?(count_key_events _ cfg) by (now intros [] E);
             rewrite ?(count_converted _ _ _ d) by (eassumption || reflexivity);
             auto|]).
  1: left; split; [assumption | reflexivity].
  all: right; split; [assumption|]; count_pieces;
    rewrite ?(count_converted _ _ _ d) by (eassumption || reflexivity);
    split; [reflexivity|];
    rewrite ?in_app_iff; cbn [In]; auto 8.
Qed.

End SessionFacts.

Section ConversionFailure.

Variable w : World.

Lemma started_halt_events (code : Z) (t : trace) :
  started w (Halt code) t -> exists text, t = [Stderr text].
Proof. intros H. inversion H; subst; eexists; reflexivity. Qed.

(** A conversion call that reports an error ends the run: exit code 4,
    no synthesis, no output file. *)
Lemma halted_convert_failure (cfg : Config) (code : Z) (t : trace) :
  halted w cfg code t ->
  forall c h line rc koe, In (K2k_Convert c h line rc koe) t -> rc <> 0 ->
  code = 4 /\ count is_synthe t = 0%nat /\ count touches_output t = 0%nat.
Proof.
  intros H c0 h0 line0 rc0 koe0 Hin0 Hrc0.
  assert (Hkeys : ~ In (K2k_Convert c0 h0 line0 rc0 koe0) (key_events cfg)).
  { intros Hk. apply in_key_events in Hk. discriminate. }
  assert (Hconv : forall c h d, Forall (converted_ok c h) d ->
                    ~ In (K2k_Convert c0 h0 line0 rc0 koe0) d).
  { intros c h d Hd Hk. destruct (in_converted c h d _ Hd Hk) as (l & k & E & _).
    injection E as _ _ _ E _. contradiction. }
  halted_cases H.
  6:{ split; [reflexivity|]. count_pieces.
      rewrite ?(count_key_events _ cfg) by (now intros [] E).
      rewrite ?(count_converted _ _ _ d) by (eassumption || reflexivity).
      split; reflexivity. }
  2,3: apply load_refused_events in Hload; destruct Hload as (m & [-> | ->]).
  all: exfalso; in_pieces Hin0;
    try (specialize (Hconv _ _ _ Hd));
    intuition (try discriminate).
Qed.

End ConversionFailure.

(** C6: on every exit path after [AqKanji2Koe_Create] has returned a
    session, [AqKanji2Koe_Release] is called exactly once in the whole
    run, on that session and after the creation, never before it; and a
    conversion call that reports an error ends the run with exit code 4
    without any synthesis call and without touching the output file. *)
Theorem session_released_exactly_once
    (w : World) (dic : string) (h : ptr) (err : Z) :
  In (K2k_Create dic h err) (events w) -> h <> null ->
  (exists pre post,
      events w = pre ++ K2k_Create dic h err :: post
      /\ count is_release pre = 0%nat
      /\ count is_release post = 1%nat
      /\ In (K2k_Release h) post)
  /\ count is_release (events w) = 1%nat
  /\ (forall c h' line rc koe,
        In (K2k_Convert c h' line rc koe) (events w) -> rc <> 0 ->
        exit_code w = Some 4
        /\ count is_synthe (events w) = 0%nat
        /\ count touches_output (events w) = 0%nat).
Proof.
  intros Hin Hh.
  destruct (events_ran w) as (code & Hcode & R).
  remember (events w) as t eqn:Et. clear Et.
  destruct R as [code t S | cfg code t S Hhalt].
  - apply started_halt_events in S. destruct S as (text & ->).
    destruct Hin as [E|[]]. discriminate.
  - assert (Hshape :
      exists pre post, t = pre ++ K2k_Create dic h err :: post
        /\ count is_release pre = 0%nat /\ count is_release post = 1%nat
        /\ In (K2k_Release h) post).
    { destruct (halted_session w cfg code t Hhalt)
        as [[Hc _] | (pre & dic0 & h0 & err0 & post & -> & (Hpre & Hpost & Hrel) & Hcase)].
      - apply (count_zero_in _ _ _ Hc) in Hin. discriminate.
      - apply in_app_iff in Hin. destruct Hin as [Hin | [E | Hin]].
        + apply (count_zero_in _ _ _ Hpre) in Hin. discriminate.
        + injection E as -> -> ->. exists pre, post.
          destruct Hcase as [[Hnull _] | (_ & Hone & Hr)]; [contradiction|].
          auto.
        + apply (count_zero_in _ _ _ Hpost) in Hin. discriminate. }
    split; [exact Hshape|]. split.
    + destruct Hshape as (pre & post & -> & Hpre & Hpost & _).
      rewrite count_app, count_cons, Hpre, Hpost. reflexivity.
    + intros c h' line rc koe Hconv Hrc.
      destruct (halted_convert_failure w cfg code t Hhalt c h' line rc koe Hconv Hrc)
        as (-> & Hs & Ho).
      auto.
Qed.

Lemma session_released_exactly_once_witness :
  In (K2k_Create (k2k_dic_of Sample.cfg0) 77 0) (events Sample.second_fails)
  /\ 77 <> null
  /\ count is_release (events Sample.second_fails) = 1%nat
  /\ exit_code Sample.second_fails = Some 4
  /\ count is_synthe (events Sample.second_fails) = 0%nat.
Proof.
  assert (Hcreate : In (K2k_Create (k2k_dic_of Sample.cfg0) 77 0)
                      (events Sample.second_fails))
    by (vm_compute; auto 10).
  assert (Hh : 77 <> null) by discriminate.
  assert (Hconv : In (K2k_Convert Utf8 77 "line two" 105 "")
                    (events Sample.second_fails))
    by (vm_compute; auto 10).
  destruct (session_released_exactly_once Sample.second_fails _ 77 0 Hcreate Hh)
    as (_ & Hone & Hfail).
  destruct (Hfail Utf8 77 "line two" 105 "" Hconv) as (Hcode & Hsyn & _);
    [discriminate|].
  auto.
Defined.

(** ** Blank input, empty input and the empty stream *)


Section InputFacts.

Variable w : World.




(** With nothing left of the input after [trim], a run that reads its
    input has opened a session just before, reports "no input", releases
    the session and returns 2. *)
Lemma halted_no_input (cfg : Config) (code : Z) (t : trace) :
  halted w cfg code t ->
  trim (w_stdin w) = "" ->
  (count is_convert t = 0 /\ count is_synthe t = 0
   /\ count touches_output t = 0)%nat
  /\ (In (ReadStdin (w_stdin w)) t ->
      code = 2
      /\ exists h err,
           h <> null
           /\ t = session_events w cfg h err
                  ++ [ReadStdin (w_stdin w); Stderr msg_no_input; K2k_Release h]).
Proof.
  intros H Hempty. halted_cases H; try contradiction.
  2,3: apply load_refused_events in Hload; destruct Hload as (m & [-> | ->]).
  all: split;
    [ count_pieces; rewrite ?(count_key_events _ cfg) by (now intros [] E);
      repeat split; reflexivity | intros Hread ].
  7:{ split; [reflexivity|]. exists h, err. auto. }
  all: exfalso; in_pieces Hread; intuition (try discriminate).
  all: match goal with
       | K : In _ (key_events _) |- _ => apply in_key_events in K; discriminate
       end.
Qed.



End InputFacts.




(** ** Empty input *)

(** C2, as the code has it: when nothing is left of the input after
    [trim], a run that gets as far as reading its input returns 2 with
    the diagnostic "No input text on stdin."; the session was created,
    successfully and for the only time, immediately before the input was
    read, and it is released, for the only time, right after the
    diagnostic; nothing is converted or synthesised and no output file is
    touched. *)
Theorem no_input_halts_after_create (w : World) :
  trim (w_stdin w) = "" -> In (ReadStdin (w_stdin w)) (events w) ->
  exit_code w = Some 2
  /\ (exists pre dic h err,
        events w = pre ++ [K2k_Create dic h err; ReadStdin (w_stdin w);
                           Stderr msg_no_input; K2k_Release h]
        /\ h <> null
        /\ count is_create pre = 0%nat
        /\ count is_release pre = 0%nat)
  /\ count is_create (events w) = 1%nat
  /\ count is_convert (events w) = 0%nat
  /\ count is_synthe (events w) = 0%nat
  /\ count touches_output (events w) = 0%nat.
Proof.
  intros Hempty Hread.
  destruct (events_ran w) as (code & Hcode & R).
  remember (events w) as t eqn:Et. clear Et.
  destruct R as [code t S | cfg code t S Hhalt].
  - apply started_halt_events in S. destruct S as (text & ->).
    destruct Hread as [E|[]]. discriminate.
  - destruct (halted_no_input w cfg code t Hhalt Hempty) as ((Hc & Hs & Ho) & Hr).
    destruct (Hr Hread) as (-> & h & err & Hh & ->).
    split; [assumption|]. split; [|split; [|auto]].
    + exists ([LoadLibraryW (k2k_dll_of cfg) (w_LoadLibraryW w (k2k_dll_of cfg));
               LoadLibraryW (tk_dll_of cfg) (w_LoadLibraryW w (tk_dll_of cfg))]
              ++ key_events cfg), (k2k_dic_of cfg), h, err.
      split; [unfold session_events; rewrite <- !app_assoc; reflexivity|].
      split; [assumption|].
      split; count_pieces; rewrite ?(count_key_events _ cfg) by (now intros [] E);
        reflexivity.
    + count_pieces. rewrite ?(count_key_events _ cfg) by (now intros [] E).
      reflexivity.
Qed.

(** Counterexample to C2 as stated: with empty standard input and
    everything else in place, the run ends in the "no input" case with
    exit code 2, but [AqKanji2Koe_Create] has been invoked before that
    halt; and when that call fails, the run on empty input ends with exit
    code 4 without reaching the "no input" case. *)
Lemma create_precedes_no_input_halt :
  trim (w_stdin Sample.no_input) = ""
  /\ exit_code Sample.no_input = Some 2
  /\ events Sample.no_input
     = [LoadLibraryW (k2k_dll_of Sample.cfg0) 4147;
        LoadLibraryW (tk_dll_of Sample.cfg0) 4148;
        K2k_Create (k2k_dic_of Sample.cfg0) 77 0;
        ReadStdin "";
        Stderr msg_no_input;
        K2k_Release 77]
  /\ count is_create (events Sample.no_input) <> 0%nat
  /\ trim (w_stdin Sample.no_session) = ""
  /\ exit_code Sample.no_session = Some 4
  /\ stderr_of (events Sample.no_session) = [msg_create_failed 103].
Proof.
  split; [|split; [|split; [|split; [|split; [|split]]]]].
  - vm_compute. reflexivity.
  - vm_compute. reflexivity.
  - vm_compute. reflexivity.
  - vm_compute. discriminate.
  - vm_compute. reflexivity.
  - vm_compute. reflexivity.
  - vm_compute. reflexivity.
Qed.

Lemma no_input_halts_after_create_witness :
  trim (w_stdin Sample.no_input) = ""
  /\ In (ReadStdin (w_stdin Sample.no_input)) (events Sample.no_input)
  /\ exit_code Sample.no_input = Some 2
  /\ count is_create (events Sample.no_input) = 1%nat.
Proof.
  assert (Hempty : trim (w_stdin Sample.no_input) = "") by reflexivity.
  assert (Hread : In (ReadStdin (w_stdin Sample.no_input)) (events Sample.no_input))
    by (vm_compute; auto 10).
  destruct (no_input_halts_after_create Sample.no_input Hempty Hread)
    as (Hcode & _ & Hcreate & _).
  auto.
Defined.

(** ** The waveform buffer *)

Section WaveFacts.

Variable w : World.

(** [AquesTalk_FreeWave] is called once in the runs that open or fail to
    open the output file, and in no other run. *)
Lemma halted_freewave (cfg : Config) (code : Z) (t : trace) :
  halted w cfg code t ->
  (count is_synthe t <= 1)%nat
  /\ (count is_synthe t = 0%nat -> count is_freewave t = 0%nat)
  /\ forall c koe sp wav size,
       In (Tk_Synthe c koe sp wav size) t ->
       count is_freewave t
       = if negb (is_null wav) && (0 <? size) then 1%nat else 0%nat.
Proof.
  intros H.
  assert (Hkeys : forall e, is_synthe e = true -> ~ In e (key_events cfg)).
  { intros e He Hk. apply in_key_events in Hk. destruct e; discriminate. }
  assert (Hconv : forall c h d e, is_synthe e = true ->
                    Forall (converted_ok c h) d -> ~ In e d).
  { intros c h d e He Hd Hk. destruct (in_converted c h d _ Hd Hk) as (l & k & -> & _).
    discriminate. }
  halted_cases H.
  2,3: apply load_refused_events in Hload; destruct Hload as (m & [-> | ->]).
  all: split; [|split];
    [ count_pieces; rewrite ?(count_key_events _ cfg) by (now intros [] E);
      rewrite ?(count_converted _ _ _ d) by (eassumption || reflexivity); lia
    | count_pieces; rewrite ?(count_key_events _ cfg) by (now intros [] E);
      rewrite ?(count_converted _ _ _ d) by (eassumption || reflexivity);
      try reflexivity; try discriminate
    | intros c0 koe0 sp0 wav0 size0 Hin0;
      pose proof (Hkeys (Tk_Synthe c0 koe0 sp0 wav0 size0) eq_refl);
      try (pose proof (Hconv _ _ _ (Tk_Synthe c0 koe0 sp0 wav0 size0) eq_refl Hd));
      in_pieces Hin0 ].
  all: try solve [exfalso; intuition discriminate].
  all: assert (E : Tk_Synthe (codec_of (use_sjis cfg)) (join_pause (koe_parts d))
                     (speed cfg) wav size = Tk_Synthe c0 koe0 sp0 wav0 size0)
         by (intuition (try discriminate; try contradiction));
       injection E as <- <- <- <- <-;
       count_pieces; rewrite ?(count_key_events _ cfg) by (now intros [] E);
       rewrite ?(count_converted _ _ _ d) by (eassumption || reflexivity).
  - destruct Hfail as [-> | Hle].
    + reflexivity.
    + apply Z.ltb_ge in Hle. rewrite Hle, andb_false_r. reflexivity.
  - apply is_null_false in Hwav. apply Z.ltb_lt in Hsize. rewrite Hwav, Hsize.
    reflexivity.
  - apply is_null_false in Hwav. apply Z.ltb_lt in Hsize. rewrite Hwav, Hsize.
    reflexivity.
Qed.

End WaveFacts.

(** What the code does for the buffer release in general: the buffer is
    released once exactly when synthesis returned a non-null buffer of
    positive size, and in no other run. *)
Lemma freewave_discipline (w : World) :
  (count is_synthe (events w) <= 1)%nat
  /\ (count is_synthe (events w) = 0%nat -> count is_freewave (events w) = 0%nat)
  /\ forall c koe sp wav size,
       In (Tk_Synthe c koe sp wav size) (events w) ->
       count is_freewave (events w)
       = if negb (is_null wav) && (0 <? size) then 1%nat else 0%nat.
Proof.
  destruct (events_ran w) as (code & Hcode & R).
  remember (events w) as t eqn:Et. clear Et.
  destruct R as [code t S | cfg code t S Hhalt].
  - apply started_halt_events in S. destruct S as (text & ->).
    split; [cbn; lia|]. split; [reflexivity|].
    intros c koe sp wav size [E|[]]. discriminate.
  - exact (halted_freewave w cfg code t Hhalt).
Qed.

(** C3 fails on the code: when [AquesTalk_Synthe_Utf8] returns the
    non-null buffer 500 and reports size 0, [main] returns 5 right after
    the diagnostic and [AquesTalk_FreeWave] is never called, although the
    property asks for exactly one release of every non-null buffer. *)
Theorem freewave_skipped_for_empty_buffer :
  events Sample.sized_zero
  = [LoadLibraryW (k2k_dll_of Sample.cfg0) 4147;
     LoadLibraryW (tk_dll_of Sample.cfg0) 4148;
     K2k_Create (k2k_dic_of Sample.cfg0) 77 0;
     ReadStdin "hello";
     K2k_Convert Utf8 77 "hello" 0 ("<hello>" ++ nl)%string;
     K2k_Release 77;
     Tk_Synthe Utf8 "<hello>" 100 500 0;
     Stderr (msg_synthe_failed 0)]
  /\ exit_code Sample.sized_zero = Some 5
  /\ is_null 500 = false
  /\ count is_freewave (events Sample.sized_zero) = 0%nat.
Proof.
  split; [|split; [|split]]; vm_compute; reflexivity.
Qed.

(** ** The pre-flight check *)





(** ** Joining parts with the pause separator *)

Section JoinFacts.






Lemma back_in (s : string) (c : ascii) : Str.back s = Some c -> In c (Str.chars s).
Proof.
  intros H. rewrite (StrFacts.back_pop_back s c H), StrFacts.chars_append.
  apply in_app_iff. right. left. reflexivity.
Qed.

Lemma back_append (a b : string) : b <> "" -> Str.back (a ++ b)%string = Str.back b.
Proof.
  intros Hb. induction a as [|x a IH]; [reflexivity|].
  cbn [String.append]. destruct (a ++ b)%string as [|y s] eqn:E.
  - apply StrFacts.append_eq_nil in E. tauto.
  - exact IH.
Qed.




End JoinFacts.

(** ** What reaches the components *)

Section CallFacts.

Variable w : World.

Lemma koe_parts_keys (cfg : Config) : koe_parts (key_events cfg) = [].
Proof.
  unfold key_events.
  destruct (negb (Str.empty (dev_key cfg))), (negb (Str.empty (usr_key cfg)));
    reflexivity.
Qed.


Lemma koe_parts_converting (cfg : Config) (h : ptr) (err : Z) (d rest : trace) :
  koe_parts (converting_events w cfg h err d ++ rest)
  = koe_parts d ++ koe_parts rest.
Proof.
  unfold converting_events, session_events.
  rewrite !koe_parts_app, koe_parts_keys. reflexivity.
Qed.




(** A synthesis call is the only one of its run and receives the
    configured speed and the joined parts of the run. *)
Lemma halted_synthe (cfg : Config) (code : Z) (t : trace) :
  halted w cfg code t ->
  forall c koe sp wav size, In (Tk_Synthe c koe sp wav size) t ->
  sp = speed cfg
  /\ koe = join_pause (koe_parts t)
  /\ count is_synthe t = 1%nat.
Proof.
  intros H c0 koe0 sp0 wav0 size0 Hin0.
  assert (Hkeys : ~ In (Tk_Synthe c0 koe0 sp0 wav0 size0) (key_events cfg)).
  { intros Hk. apply in_key_events in Hk. discriminate. }
  assert (Hconv : forall c h d, Forall (converted_ok c h) d ->
                    ~ In (Tk_Synthe c0 koe0 sp0 wav0 size0) d).
  { intros c h d Hd Hk. destruct (in_converted c h d _ Hd Hk) as (l & k & E & _).
    discriminate. }
  halted_cases H.
  2,3: apply load_refused_events in Hload; destruct Hload as (m & [-> | ->]).
  all: try solve [exfalso; in_pieces Hin0; try (specialize (Hconv _ _ _ Hd));
                  intuition discriminate].
  all: rewrite koe_parts_converting; cbn [koe_parts flat_map app];
    rewrite app_nil_r;
    assert (E : Tk_Synthe (codec_of (use_sjis cfg)) (join_pause (koe_parts d))
                  (speed cfg) wav size = Tk_Synthe c0 koe0 sp0 wav0 size0)
      by (in_pieces Hin0; specialize (Hconv _ _ _ Hd);
          intuition (try discriminate; try contradiction));
    injection E as <- <- <- <- <-;
    split; [reflexivity|]; split; [reflexivity|];
    count_pieces; rewrite ?(count_key_events _ cfg) by (now intros [] E);
    rewrite ?(count_converted _ _ _ d) by (eassumption || reflexivity);
    reflexivity.
Qed.


(** The configuration argument handling leaves. *)
Lemma started_config (cfg : Config) (t : trace) :
  started w (Next cfg) t ->
  (exists v, requested_speed (w_args w) v /\ speed cfg = clamp_speed v)
  /\ use_sjis cfg
     = use_sjis_of (value_or (get_arg_value (w_args w) "--encoding") "utf8").
Proof. intros H. inversion H; subst. cbn. eauto. Qed.

End CallFacts.

(** ** The assembled phoneme stream *)



(** ** The speed handed to synthesis *)

Lemma clamp_speed_range (v : Z) : 50 <= clamp_speed v <= 300.
Proof.
  unfold clamp_speed.
  destruct (v <? 50) eqn:Elo; [reflexivity || (cbn; lia)|].
  apply Z.ltb_ge in Elo.
  destruct (v >? 300) eqn:Ehi; [lia|].
  rewrite Z.gtb_ltb in Ehi. apply Z.ltb_ge in Ehi. lia.
Qed.

Lemma clamp_speed_id (v : Z) : 50 <= v <= 300 -> clamp_speed v = v.
Proof.
  intros [Hlo Hhi]. unfold clamp_speed.
  destruct (v <? 50) eqn:Elo; [apply Z.ltb_lt in Elo; lia|].
  destruct (v >? 300) eqn:Ehi; [|reflexivity].
  rewrite Z.gtb_ltb in Ehi. apply Z.ltb_lt in Ehi. lia.
Qed.

(** C7: the speed of every synthesis call is [clamp_speed] of the value
    the command line asks for (100 without [--speed]); [clamp_speed]
    always lands in [50, 300], sends 49 to 50 and 301 to 300, and leaves
    every value of [50, 300], such as 50, 100 and 300, unchanged. *)
Theorem speed_passed_is_clamped :
  (forall w c koe sp wav size,
      In (Tk_Synthe c koe sp wav size) (events w) ->
      exists v, requested_speed (w_args w) v /\ sp = clamp_speed v)
  /\ (forall v, 50 <= clamp_speed v <= 300)
  /\ (forall v, clamp_speed v = Z.max 50 (Z.min 300 v))
  /\ clamp_speed 49 = 50
  /\ clamp_speed 301 = 300
  /\ (forall v, 50 <= v <= 300 -> clamp_speed v = v)
  /\ clamp_speed 50 = 50 /\ clamp_speed 100 = 100 /\ clamp_speed 300 = 300.
Proof.
  split; [|split; [|split; [|split; [|split; [|split]]]]].
  - intros w c koe sp wav size Hin.
    destruct (events_ran w) as (code & Hcode & R).
    remember (events w) as t eqn:Et. clear Et.
    destruct R as [code t S | cfg code t S Hhalt].
    + apply started_halt_events in S. destruct S as (text & ->).
      destruct Hin as [E|[]]. discriminate.
    + destruct (halted_synthe w cfg code t Hhalt c koe sp wav size Hin) as (-> & _).
      destruct (started_config w cfg [] S) as ((v & Hv & E) & _).
      exists v. auto.
  - apply clamp_speed_range.
  - intros v. pose proof (clamp_speed_range v) as Hr.
    destruct (Z.lt_ge_cases v 50) as [Hlo | Hlo].
    + unfold clamp_speed. apply Z.ltb_lt in Hlo. rewrite Hlo. cbn. lia.
    + destruct (Z.le_gt_cases v 300) as [Hhi | Hhi].
      * rewrite clamp_speed_id by lia. lia.
      * unfold clamp_speed. apply Z.ltb_ge in Hlo. rewrite Hlo.
        apply Z.gtb_lt in Hhi. rewrite Hhi. lia.
  - reflexivity.
  - reflexivity.
  - apply clamp_speed_id.
  - repeat split.
Qed.

Lemma speed_passed_is_clamped_witness :
  In (Tk_Synthe Utf8 "<line one>/<line two>" 50 500 44)
    (events (Sample.two_lines ["--speed"; "49"]))
  /\ requested_speed (w_args (Sample.two_lines ["--speed"; "49"])) 49
  /\ exists v, requested_speed (w_args (Sample.two_lines ["--speed"; "49"])) v
               /\ 50 = clamp_speed v.
Proof.
  assert (Hin : In (Tk_Synthe Utf8 "<line one>/<line two>" 50 500 44)
                  (events (Sample.two_lines ["--speed"; "49"])))
    by (vm_compute; auto 20).
  split; [exact Hin|]. split; [reflexivity|].
  exact (proj1 speed_passed_is_clamped _ _ _ _ _ _ Hin).
Defined.

(** Further speed values, end to end. *)
Example speed_301_runs_at_300 :
  In (Tk_Synthe Utf8 "<line one>/<line two>" 300 500 44)
    (events (Sample.two_lines ["--speed=301"])).
Proof. vm_compute. auto 20. Qed.

Example speed_default_runs_at_100 :
  In (Tk_Synthe Utf8 "<line one>/<line two>" 100 500 44)
    (events (Sample.two_lines [])).
Proof. vm_compute. auto 20. Qed.

(** ** The text encoding *)






(** The three legacy names, end to end. *)
Example cp932_runs_legacy :
  In (Tk_Synthe Sjis "<line one>/<line two>" 100 500 44)
    (events (Sample.two_lines ["--encoding"; "cp932"])).
Proof. vm_compute. auto 20. Qed.

(** * Further properties of the code *)

(** ** [trim] *)

Section TrimMore.

Lemma trim_front_blank_append (p x : string) :
  blank p -> trim_front (p ++ x)%string = trim_front x.
Proof.
  induction p as [|c p IH]; intros H; [reflexivity|].
  inversion H as [|? ? Hc Hp]; subst. cbn [String.append trim_front].
  rewrite Hc. apply IH, Hp.
Qed.

Lemma pop_back_append (r q : string) :
  q <> "" -> Str.pop_back (r ++ q)%string = (r ++ Str.pop_back q)%string.
Proof.
  intros Hq. induction r as [|x r IH]; [reflexivity|].
  cbn [String.append]. destruct (r ++ q)%string as [|y s] eqn:E.
  - apply StrFacts.append_eq_nil in E. tauto.
  - change (Str.pop_back (String x (String y s)))
      with (String x (Str.pop_back (String y s))).
    rewrite IH. reflexivity.
Qed.

Lemma blank_pop_back (q : string) : blank q -> blank (Str.pop_back q).
Proof.
  unfold blank. induction q as [|x q IH]; intros H; [constructor|].
  inversion H as [|? ? Hx Hq]; subst.
  destruct q as [|y q']; [constructor|].
  change (Str.pop_back (String x (String y q')))
    with (String x (Str.pop_back (String y q'))).
  constructor; [assumption | apply IH, Hq].
Qed.

Lemma blank_back (q : string) (c : ascii) :
  blank q -> Str.back q = Some c -> is_space c = true.
Proof.
  intros H Hb. exact (proj1 (Forall_forall _ _) H c (back_in q c Hb)).
Qed.

(** The second loop of [trim] removes a blank suffix whole when what
    stands before it ends with a character that is not white space. *)
Lemma trim_back_blank_suffix (fuel : nat) : forall r q c,
  Str.back r = Some c -> is_space c = false -> blank q ->
  (String.length q <= fuel)%nat ->
  trim_back fuel (r ++ q)%string = r.
Proof.
  induction fuel as [|fuel IH]; intros r q c Hb Hc Hq Hlen.
  - destruct q; [|simpl in Hlen; lia]. apply StrFacts.append_nil_r.
  - destruct q as [|x q'] eqn:Eq.
    + rewrite StrFacts.append_nil_r. cbn [trim_back]. rewrite Hb, Hc. reflexivity.
    + rewrite <- Eq in *. assert (Hne : q <> "") by (rewrite Eq; discriminate).
      cbn [trim_back]. rewrite (back_append r q Hne).
      destruct (Str.back q) as [y|] eqn:Hy.
      * rewrite (blank_back q y Hq Hy), (pop_back_append r q Hne).
        apply (IH r (Str.pop_back q) c Hb Hc (blank_pop_back q Hq)).
        rewrite length_pop_back. lia.
      * rewrite Eq in Hy. clear - Hy. exfalso.
        revert x Hy. induction q' as [|z q' IH]; intros x Hy; [discriminate|].
        exact (IH z Hy).
Qed.

Lemma tight_nil : tight "".
Proof. split; intros c H; discriminate. Qed.

(** [trim s] is a tight string between a blank prefix and a blank suffix
    of [s]. *)
Lemma trim_split_tight (s : string) :
  exists pre suf,
    s = (pre ++ trim s ++ suf)%string /\ blank pre /\ blank suf /\ tight (trim s).
Proof.
  destruct (trim_front_split s) as (pre & E & Hpre & _).
  destruct (trim_back_split (String.length (trim_front s)) (trim_front s))
    as (suf & E' & Hsuf).
  exists pre, suf. split.
  - rewrite E at 1. f_equal. exact E'.
  - split; [assumption|]. split; [assumption|].
    destruct (trim_ends s) as (Hb & Hh). split; assumption.
Qed.

(** ... and the only one. *)
Lemma trim_unique (s r pre suf : string) :
  s = (pre ++ r ++ suf)%string -> blank pre -> blank suf -> tight r ->
  trim s = r.
Proof.
  intros -> Hpre Hsuf (Hhd & Hback). unfold trim.
  rewrite (trim_front_blank_append pre _ Hpre).
  destruct r as [|c r0].
  - cbn [String.append]. rewrite (trim_front_blank suf Hsuf). reflexivity.
  - assert (Hc : is_space c = false) by (apply Hhd; reflexivity).
    cbn [String.append trim_front]. rewrite Hc.
    change (String c (r0 ++ suf))%string with (String c r0 ++ suf)%string.
    destruct (Str.back (String c r0)) as [b|] eqn:Hb.
    + apply (trim_back_blank_suffix _ (String c r0) suf b Hb (Hback b eq_refl) Hsuf).
      rewrite StrFacts.length_append. lia.
    + exfalso. clear - Hb. revert c Hb.
      induction r0 as [|z r0 IH]; intros c Hb; [discriminate|].
      exact (IH z Hb).
Qed.

End TrimMore.

(** X1: [trim] removes white space (blank, tab, carriage return, line
    feed) at the two ends and nothing else: [trim s] is the one string
    that, unless empty, neither begins nor ends with white space and
    that stands in [s] between a prefix and a suffix of white space. *)
Theorem trim_characterized (s r : string) :
  trim s = r
  <-> exists pre suf,
        s = (pre ++ r ++ suf)%string /\ blank pre /\ blank suf /\ tight r.
Proof.
  split.
  - intros <-. apply trim_split_tight.
  - intros (pre & suf & E & Hpre & Hsuf & Ht).
    exact (trim_unique s r pre suf E Hpre Hsuf Ht).
Qed.

(** X2: trimming twice is trimming once. *)
Theorem trim_idempotent (s : string) : trim (trim s) = trim s.
Proof.
  destruct (trim_split_tight s) as (_ & _ & _ & _ & _ & Ht).
  apply (trim_unique (trim s) (trim s) "" "").
  - cbn [String.append]. rewrite StrFacts.append_nil_r. reflexivity.
  - apply blank_nil.
  - apply blank_nil.
  - exact Ht.
Qed.

(** X3: [trim] returns the empty string exactly for the strings made of
    white space only, the empty string among them. *)
Theorem trim_empties_exactly_blank (s : string) : trim s = "" <-> blank s.
Proof. split; [apply trim_nil_blank | apply trim_blank]. Qed.

(** ** [split_lines] *)

Section SplitMore.

(** The lines already in [out] stay in front, untouched. *)
Lemma split_lines_loop_out (s : string) : forall out cur,
  split_lines_loop s out cur = out ++ split_lines_loop s [] cur.
Proof.
  induction s as [|c s IH]; intros out cur; cbn [split_lines_loop]; [reflexivity|].
  destruct (Ascii.eqb c Str.CR); [apply IH|].
  destruct (Ascii.eqb c Str.LF); [|apply IH].
  rewrite (IH (out ++ [cur])), (IH ([] ++ [cur])), <- app_assoc. reflexivity.
Qed.

Lemma split_lines_loop_nonempty (s : string) (cur : string) :
  split_lines_loop s [] cur <> [].
Proof.
  intros E. pose proof (split_lines_loop_length s [] cur) as H.
  rewrite E in H. simpl in H. lia.
Qed.

Lemma drop_cr_cons (c : ascii) (s : string) :
  drop_cr (String c s)
  = if Ascii.eqb c Str.CR then drop_cr s else String c (drop_cr s).
Proof. unfold drop_cr. cbn. destruct (Ascii.eqb c Str.CR); reflexivity. Qed.

Lemma drop_cr_append (a b : string) :
  drop_cr (a ++ b)%string = (drop_cr a ++ drop_cr b)%string.
Proof.
  induction a as [|c a IH]; [reflexivity|].
  cbn [String.append]. rewrite !drop_cr_cons, IH.
  destruct (Ascii.eqb c Str.CR); reflexivity.
Qed.

Lemma concat_cons_nonempty (sep x : string) (l : list string) :
  l <> [] -> String.concat sep (x :: l) = (x ++ sep ++ String.concat sep l)%string.
Proof. destruct l; [contradiction | reflexivity]. Qed.

Lemma join_split_lines_loop (s : string) : forall cur,
  String.concat nl (split_lines_loop s [] cur) = (cur ++ drop_cr s)%string.
Proof.
  induction s as [|c s IH]; intros cur; cbn [split_lines_loop].
  - cbn. symmetry. apply StrFacts.append_nil_r.
  - rewrite drop_cr_cons.
    destruct (Ascii.eqb c Str.CR) eqn:Ecr; [apply IH|].
    destruct (Ascii.eqb c Str.LF) eqn:Elf.
    + apply Ascii.eqb_eq in Elf. subst c.
      rewrite split_lines_loop_out. cbn [app].
      rewrite concat_cons_nonempty by apply split_lines_loop_nonempty.
      rewrite IH. reflexivity.
    + rewrite IH. unfold Str.push_back. rewrite StrFacts.append_assoc.
      reflexivity.
Qed.

Lemma split_lines_loop_append_lf (a b : string) : forall out cur,
  split_lines_loop (a ++ String Str.LF b)%string out cur
  = split_lines_loop a out cur ++ split_lines_loop b [] "".
Proof.
  induction a as [|c a IH]; intros out cur.
  - cbn [String.append split_lines_loop].
    replace (Ascii.eqb Str.LF Str.CR) with false by reflexivity.
    rewrite Ascii.eqb_refl. apply split_lines_loop_out.
  - cbn [String.append split_lines_loop].
    destruct (Ascii.eqb c Str.CR); [apply IH|].
    destruct (Ascii.eqb c Str.LF); apply IH.
Qed.

End SplitMore.

(** X4: joining the lines of [split_lines s] with line feeds gives [s]
    back, but for its carriage returns; for a string without carriage
    returns, [split_lines] loses nothing. *)
Theorem split_lines_joined (s : string) :
  String.concat nl (split_lines s) = drop_cr s
  /\ (~ In Str.CR (Str.chars s) -> String.concat nl (split_lines s) = s).
Proof.
  assert (H : String.concat nl (split_lines s) = drop_cr s).
  { unfold split_lines. rewrite join_split_lines_loop. reflexivity. }
  split; [exact H|].
  intros Hcr. rewrite H. clear H.
  induction s as [|c s IH]; [reflexivity|].
  rewrite drop_cr_cons.
  destruct (Ascii.eqb c Str.CR) eqn:E.
  - apply Ascii.eqb_eq in E. subst c. exfalso. apply Hcr. left. reflexivity.
  - f_equal. apply IH. intros Hin. apply Hcr. right. exact Hin.
Qed.

Lemma split_lines_joined_witness :
  ~ In Str.CR (Str.chars ("a" ++ nl ++ nl ++ "b"))
  /\ String.concat nl (split_lines ("a" ++ nl ++ nl ++ "b")) = ("a" ++ nl ++ nl ++ "b")%string.
Proof.
  assert (H : ~ In Str.CR (Str.chars ("a" ++ nl ++ nl ++ "b")))
    by (vm_compute; intuition discriminate).
  split; [exact H|].
  exact (proj2 (split_lines_joined ("a" ++ nl ++ nl ++ "b")) H).
Defined.

(** X5: a line feed separates: the lines of [a], a line feed, [b] are the
    lines of [a] followed by the lines of [b]. *)
Theorem split_lines_append_lf (a b : string) :
  split_lines (a ++ nl ++ b)%string = split_lines a ++ split_lines b.
Proof. unfold split_lines. apply split_lines_loop_append_lf. Qed.

(** ** Carriage returns in the input *)

Section CarriageReturns.

Lemma is_space_cr (c : ascii) : is_space c = false -> Ascii.eqb c Str.CR = false.
Proof.
  unfold is_space. intros H. apply orb_false_iff in H. destruct H as [H _].
  apply orb_false_iff in H. tauto.
Qed.

Lemma blank_drop_cr (p : string) : blank p -> blank (drop_cr p).
Proof.
  unfold blank. induction p as [|c p IH]; intros H; [constructor|].
  inversion H as [|? ? Hc Hp]; subst. rewrite drop_cr_cons.
  destruct (Ascii.eqb c Str.CR); [apply IH, Hp|].
  constructor; [assumption | apply IH, Hp].
Qed.

Lemma tight_drop_cr (r : string) : tight r -> tight (drop_cr r).
Proof.
  intros (Hhd & Hback). destruct r as [|c r0]; [apply tight_nil|].
  assert (Hc : is_space c = false) by (apply Hhd; reflexivity).
  split.
  - rewrite drop_cr_cons, (is_space_cr c Hc). intros x [= <-]. exact Hc.
  - destruct (Str.back (String c r0)) as [b|] eqn:Hb.
    + assert (Hsp : is_space b = false) by (apply Hback; reflexivity).
      rewrite (StrFacts.back_pop_back _ b Hb), drop_cr_append.
      rewrite (drop_cr_cons b ""), (is_space_cr b Hsp).
      rewrite back_append by discriminate.
      intros x [= <-]. exact Hsp.
    + exfalso. clear - Hb. revert c Hb.
      induction r0 as [|z r0 IH]; intros c Hb; [discriminate|].
      exact (IH z Hb).
Qed.

Lemma trim_drop_cr (s : string) : trim (drop_cr s) = drop_cr (trim s).
Proof.
  destruct (trim_split_tight s) as (pre & suf & E & Hpre & Hsuf & Ht).
  apply (trim_unique _ _ (drop_cr pre) (drop_cr suf)).
  - rewrite E at 1. rewrite !drop_cr_append. reflexivity.
  - apply blank_drop_cr, Hpre.
  - apply blank_drop_cr, Hsuf.
  - apply tight_drop_cr, Ht.
Qed.

End CarriageReturns.

(** X6: carriage returns in the input make no difference to what is
    converted: taking them all out of the input commutes with [trim],
    leaves the input empty after [trim] exactly when it was, and leaves
    the lines handed to the converter the same. *)
Theorem carriage_returns_ignored (s : string) :
  trim (drop_cr s) = drop_cr (trim s)
  /\ (trim (drop_cr s) = "" <-> trim s = "")
  /\ wanted_lines (drop_cr s) = wanted_lines s.
Proof.
  split; [apply trim_drop_cr|]. split.
  - rewrite trim_drop_cr. split.
    + intros E. destruct (trim_split_tight s) as (_ & _ & _ & _ & _ & (Hhd & _)).
      destruct (trim s) as [|c r0]; [reflexivity|].
      rewrite drop_cr_cons, (is_space_cr c (Hhd c eq_refl)) in E. discriminate.
    + intros ->. reflexivity.
  - unfold wanted_lines, split_lines. rewrite trim_drop_cr.
    rewrite <- split_lines_loop_drop_cr. reflexivity.
Qed.

(** ** [get_arg_value] and [has_flag] *)

Section ArgFacts.

Lemma substr_from_zero (s : string) : substr_from 0 s = s.
Proof.
  unfold substr_from. rewrite Nat.sub_0_r.
  induction s as [|c s IH]; [reflexivity|]. cbn. rewrite IH. reflexivity.
Qed.

Lemma substr_from_succ (n : nat) (c : ascii) (s : string) :
  substr_from (S n) (String c s) = substr_from n s.
Proof. reflexivity. Qed.

(** A string with prefix [p] is [p] followed by what [substr] cuts off
    behind it. *)
Lemma prefix_split (p : string) : forall a,
  String.prefix p a = true -> a = (p ++ substr_from (String.length p) a)%string.
Proof.
  induction p as [|x p IH]; intros a H.
  - cbn. symmetry. apply substr_from_zero.
  - destruct a as [|y a]; [discriminate|].
    cbn in H. destruct (ascii_dec x y) as [<-|]; [|discriminate].
    cbn [String.length String.append]. rewrite substr_from_succ.
    f_equal. apply IH, H.
Qed.

Lemma prefix_append (p v : string) : String.prefix p (p ++ v) = true.
Proof.
  induction p as [|x p IH]; [destruct v; reflexivity|].
  cbn. destruct (ascii_dec x x); [exact IH | contradiction].
Qed.

Lemma substr_from_append (p v : string) :
  substr_from (String.length p) (p ++ v) = v.
Proof.
  induction p as [|x p IH]; [apply substr_from_zero|].
  cbn [String.length String.append]. rewrite substr_from_succ. exact IH.
Qed.

Lemma prefix_length (p : string) : forall a,
  String.prefix p a = true -> (String.length p <= String.length a)%nat.
Proof.
  induction p as [|x p IH]; intros a H; [cbn; lia|].
  destruct a as [|y a]; [discriminate|].
  cbn in H. destruct (ascii_dec x y); [|discriminate].
  cbn. apply le_n_S, IH, H.
Qed.

Lemma length_key_eq (key : string) :
  String.length (key ++ "=") = (String.length key + 1)%nat.
Proof. rewrite StrFacts.length_append. reflexivity. Qed.

(** [key] itself does not begin with [key=]. *)
Lemma key_not_equals_form (key : string) : String.prefix (key ++ "=") key = false.
Proof.
  destruct (String.prefix (key ++ "=") key) eqn:E; [|reflexivity].
  apply prefix_length in E. rewrite length_key_eq in E. lia.
Qed.

(** [key=v] is not [key]. *)
Lemma equals_form_not_key (key v : string) : (key ++ "=" ++ v)%string <> key.
Proof.
  intros E. apply (f_equal String.length) in E.
  rewrite !StrFacts.length_append in E. cbn in E. lia.
Qed.

(** One step of the loop of [get_arg_value] at an argument that offers
    nothing. *)
Lemma get_arg_value_quiet (key a : string) (rest : list string) :
  quiet key a -> get_arg_value (a :: rest) key = get_arg_value rest key.
Proof.
  intros (Hne & Hpre). cbn [get_arg_value]. rewrite Hpre.
  apply String.eqb_neq in Hne. rewrite Hne. reflexivity.
Qed.

Lemma get_arg_value_skip (key : string) (pre rest : list string) :
  Forall (quiet key) pre ->
  get_arg_value (pre ++ rest) key = get_arg_value rest key.
Proof.
  induction pre as [|a pre IH]; intros H; [reflexivity|].
  inversion H as [|? ? Ha Hpre]; subst.
  cbn [app]. rewrite (get_arg_value_quiet key a _ Ha). apply IH, Hpre.
Qed.

End ArgFacts.

(** X7: whatever [get_arg_value] returns was on the command line: it is
    the argument that follows one equal to [key], or what stands behind
    [key=] in an argument that begins so. *)
Theorem get_arg_value_from_args (args : list string) (key v : string) :
  get_arg_value args key = Some v ->
  exists pre post,
    args = pre ++ key :: v :: post
    \/ args = pre ++ (key ++ "=" ++ v)%string :: post.
Proof.
  induction args as [|a rest IH]; intros H; [discriminate|].
  cbn [get_arg_value] in H.
  destruct (a =? key)%string eqn:Ea.
  - apply String.eqb_eq in Ea. subst a.
    destruct rest as [|x rest'].
    + rewrite key_not_equals_form in H. discriminate.
    + injection H as <-. exists [], rest'. left. reflexivity.
  - destruct (String.prefix (key ++ "=") a) eqn:Ep.
    + injection H as <-. exists [], rest. right. cbn [app]. f_equal.
      rewrite (prefix_split _ _ Ep) at 1.
      rewrite length_key_eq, StrFacts.append_assoc. reflexivity.
    + destruct (IH H) as (pre & post & [E | E]);
        exists (a :: pre), post; [left | right]; rewrite E; reflexivity.
Qed.

Lemma get_arg_value_from_args_witness :
  get_arg_value ["exe"; "--voice=f2"; "--out"; "a.wav"] "--out" = Some "a.wav"
  /\ exists pre post,
       ["exe"; "--voice=f2"; "--out"; "a.wav"] = pre ++ "--out" :: "a.wav" :: post
       \/ ["exe"; "--voice=f2"; "--out"; "a.wav"]
          = pre ++ ("--out" ++ "=" ++ "a.wav")%string :: post.
Proof.
  split; [reflexivity|].
  exact (get_arg_value_from_args ["exe"; "--voice=f2"; "--out"; "a.wav"]
           "--out" "a.wav" eq_refl).
Defined.

(** X8: [get_arg_value] finds nothing exactly when no argument offers a
    value: none begins with [key=], and [key] itself occurs at most as
    the very last argument, where no value follows it. *)
Theorem get_arg_value_none_iff (args : list string) (key : string) :
  get_arg_value args key = None
  <-> forall pre a post,
        args = pre ++ a :: post ->
        String.prefix (key ++ "=") a = false /\ (a = key -> post = []).
Proof.
  induction args as [|a rest IH].
  - split; [|reflexivity]. intros _ pre x post E.
    destruct pre; discriminate.
  - cbn [get_arg_value]. split.
    + intros H pre x post E.
      destruct (a =? key)%string eqn:Ea.
      * destruct rest as [|y rest']; [|discriminate].
        destruct pre as [|? [|? ?]]; try discriminate.
        injection E as <- <-. split; [|reflexivity].
        apply String.eqb_eq in Ea. subst a. apply key_not_equals_form.
      * destruct (String.prefix (key ++ "=") a) eqn:Ep; [discriminate|].
        destruct pre as [|b pre'].
        -- injection E as <- <-. split; [assumption|].
           intros ->. rewrite String.eqb_refl in Ea. discriminate.
        -- injection E as <- E. exact (proj1 IH H pre' x post E).
    + intros H.
      destruct (H [] a rest eq_refl) as (Hp & Hlast).
      rewrite Hp.
      assert (Hrest : get_arg_value rest key = None).
      { apply IH. intros pre x post E. apply (H (a :: pre) x post).
        rewrite E. reflexivity. }
      destruct (a =? key)%string eqn:Ea; [|exact Hrest].
      apply String.eqb_eq in Ea. rewrite (Hlast Ea). reflexivity.
Qed.

(** X9: the first argument that offers a value decides, in either form:
    behind arguments that are neither [key] nor begin with [key=], the
    argument after [key] is returned whatever it is, [key=v] yields [v],
    and [key] as the last argument yields nothing. *)
Theorem get_arg_value_first_offer (key : string) (pre : list string) :
  Forall (quiet key) pre ->
  (forall v post, get_arg_value (pre ++ key :: v :: post) key = Some v)
  /\ (forall v post,
        get_arg_value (pre ++ (key ++ "=" ++ v)%string :: post) key = Some v)
  /\ get_arg_value (pre ++ [key]) key = None.
Proof.
  intros Hpre. split; [|split].
  - intros v post. rewrite (get_arg_value_skip key pre _ Hpre).
    cbn [get_arg_value]. rewrite String.eqb_refl. reflexivity.
  - intros v post. rewrite (get_arg_value_skip key pre _ Hpre).
    cbn [get_arg_value].
    pose proof (equals_form_not_key key v) as Hne.
    apply String.eqb_neq in Hne. rewrite Hne.
    rewrite <- StrFacts.append_assoc, prefix_append.
    rewrite <- length_key_eq, substr_from_append.
    destruct post; reflexivity.
  - rewrite (get_arg_value_skip key pre _ Hpre).
    cbn [get_arg_value]. rewrite String.eqb_refl, key_not_equals_form.
    reflexivity.
Qed.

Lemma get_arg_value_first_offer_witness :
  Forall (quiet "--voice") ["exe"; "--speed"; "80"]
  /\ get_arg_value (["exe"; "--speed"; "80"] ++ ["--voice"; "--out"; "x.wav"])
       "--voice" = Some "--out"
  /\ get_arg_value (["exe"; "--speed"; "80"] ++ ["--voice"]) "--voice" = None.
Proof.
  assert (H : Forall (quiet "--voice") ["exe"; "--speed"; "80"]).
  { repeat constructor; discriminate. }
  destruct (get_arg_value_first_offer "--voice" ["exe"; "--speed"; "80"] H)
    as (Hsep & _ & Hlast).
  split; [exact H|]. split; [exact (Hsep "--out" ["x.wav"]) | exact Hlast].
Defined.

(** ** Argument handling in [main] *)

Section StartFacts.

Variable w : World.

Lemma has_flag_in (args : list string) (key : string) :
  has_flag args key = true <-> In key args.
Proof.
  unfold has_flag. rewrite existsb_exists. split.
  - intros (a & Ha & E). apply String.eqb_eq in E. subst a. exact Ha.
  - intros H. exists key. split; [exact H | apply String.eqb_refl].
Qed.

Lemma help_requested_in :
  help_requested w = true <-> In "--help" (w_args w) \/ In "-h" (w_args w).
Proof.
  unfold help_requested. rewrite orb_true_iff, !has_flag_in. reflexivity.
Qed.

(** What argument handling returns is what the run returns when it
    returns from [main]. *)
Lemma run_of_halt (code : Z) (t : trace) :
  parse_config w [] = (Halt code, t) -> run w = (Halt code, t).
Proof. intros H. unfold run, main, bind. rewrite H. reflexivity. Qed.


End StartFacts.

(** X10: [--help] or [-h] anywhere among the arguments, the program name
    and the values of other options included, makes the run print the
    usage text on standard error and return 0, and nothing else. *)
Theorem help_wins (w : World) :
  In "--help" (w_args w) \/ In "-h" (w_args w) ->
  run w = (Halt 0, [Stderr usage_text]).
Proof.
  intros H. apply run_of_halt. unfold parse_config.
  fold (help_requested w). rewrite (proj2 (help_requested_in w) H).
  reflexivity.
Qed.

Lemma help_wins_witness :
  In "-h" (w_args (Sample.two_lines ["--voice"; "-h"]))
  /\ run (Sample.two_lines ["--voice"; "-h"]) = (Halt 0, [Stderr usage_text]).
Proof.
  assert (H : In "-h" (w_args (Sample.two_lines ["--voice"; "-h"])))
    by (simpl; auto 10).
  split; [exact H|].
  exact (help_wins (Sample.two_lines ["--voice"; "-h"]) (or_intror H)).
Defined.

(** X11: without a request for help, a [--speed] value that [std::stoi]
    rejects ends the run at once: the only output is "Invalid --speed"
    on standard error and the exit code is 2, whatever the other
    arguments, the files and the components are. *)
Theorem invalid_speed_rejected (w : World) (s : string) :
  help_requested w = false ->
  get_arg_value (w_args w) "--speed" = Some s ->
  Stoi.stoi s = None ->
  run w = (Halt 2, [Stderr msg_invalid_speed]).
Proof.
  intros Hhelp Hs Hstoi. apply run_of_halt. unfold parse_config.
  fold (help_requested w). rewrite Hhelp. unfold bind at 1.
  rewrite Hs, Hstoi. reflexivity.
Qed.

Lemma invalid_speed_rejected_witness :
  help_requested (Sample.two_lines ["--speed"; "fast"]) = false
  /\ get_arg_value (w_args (Sample.two_lines ["--speed"; "fast"])) "--speed"
     = Some "fast"
  /\ Stoi.stoi "fast" = None
  /\ run (Sample.two_lines ["--speed"; "fast"])
     = (Halt 2, [Stderr msg_invalid_speed]).
Proof.
  split; [reflexivity|]. split; [reflexivity|]. split; [reflexivity|].
  exact (invalid_speed_rejected (Sample.two_lines ["--speed"; "fast"]) "fast"
           eq_refl eq_refl eq_refl).
Defined.




(** The root one level above the executable is found and used. *)
Example root_found_one_level_up :
  find_aquestalk_root_from
    (Sample.detecting (fun p => (p =? "C:\app\aquestalk")%string)) "C:\app\bin"
  = Some "C:\app\aquestalk".
Proof. reflexivity. Qed.

(** ** Exit codes and what a run has done by then *)

(** Evaluates a count of events over one of the traces of [halted]. *)
Ltac count_halted :=
  unfold converting_events, session_events;
  repeat rewrite count_app;
  repeat rewrite count_cons;
  rewrite ?count_key_events by (now intros [] E);
  repeat match goal with
         | Hd : Forall (converted_ok _ _) ?d |- context [count ?p ?d] =>
             rewrite (count_converted p _ _ d Hd) by reflexivity
         end;
  cbn [is_load is_create is_release is_convert is_synthe is_freewave
       is_free_library is_read_stdin is_stdout is_write is_key
       touches_output count filter List.length Nat.add].

Section ExitFacts.

Variable w : World.


End ExitFacts.



(** ** Success *)

Section SuccessFacts.

Variable w : World.

(** An event that is neither a license-key call nor a conversion call
    is in no [key_events] and among no successful conversions. *)
Lemma not_in_keys (cfg : Config) (e : event) :
  is_key e = false -> ~ In e (key_events cfg).
Proof. intros H Hin. apply in_key_events in Hin. congruence. Qed.

Lemma not_in_converted (c : codec) (h : ptr) (d : trace) (e : event) :
  is_convert e = false -> Forall (converted_ok c h) d -> ~ In e d.
Proof.
  intros H Hd Hin. destruct (in_converted c h d e Hd Hin) as (l & k & -> & _).
  discriminate.
Qed.

Lemma halted_stdout (cfg : Config) (code : Z) (t : trace) (s : string) :
  halted w cfg code t ->
  In (Stdout s) t ->
  code = 0
  /\ s = (out_path cfg ++ nl)%string
  /\ (count is_stdout t = 1 /\ count is_write t = 1)%nat
  /\ exists koe wav size,
       In (Tk_Synthe (codec_of (use_sjis cfg)) koe (speed cfg) wav size) t
       /\ In (OpenOut (out_path cfg) true) t
       /\ In (WriteOut (out_path cfg) wav size) t
       /\ wav <> null /\ 0 < size.
Proof.
  intros H Hev.
  pose proof (not_in_keys cfg (Stdout s) eq_refl) as Hkeys.
  halted_cases H.
  2,3: apply load_refused_events in Hload; destruct Hload as (m & [-> | ->]).
  all: try (pose proof (not_in_converted _ _ d (Stdout s) eq_refl Hd) as Hconv).
  all: try solve [exfalso; in_pieces Hev; intuition discriminate].
  assert (E : Stdout (out_path cfg ++ nl) = Stdout s)
    by (in_pieces Hev; intuition (try discriminate; try contradiction)).
  injection E as <-.
  split; [reflexivity|]. split; [reflexivity|].
  split; [split; count_halted; reflexivity|].
  exists (join_pause (koe_parts d)), wav, size.
  repeat split; try assumption; apply in_app_iff; right; cbn [In]; auto 10.
Qed.

End SuccessFacts.

(** X15: a path is printed on standard output only by a run that returns
    0 after writing: the line printed is the output path ([--out], or
    the temporary path without it) followed by a line feed; that file was
    opened and written once, with exactly the buffer and the size that
    the one synthesis call returned, a non-null buffer of positive size. *)
Theorem stdout_reports_written_file (w : World) (s : string) :
  In (Stdout s) (events w) ->
  exit_code w = Some 0
  /\ s = (value_or (get_arg_value (w_args w) "--out") (w_temp_wav_path w) ++ nl)%string
  /\ count is_stdout (events w) = 1%nat
  /\ count is_write (events w) = 1%nat
  /\ exists out c koe sp wav size,
       s = (out ++ nl)%string
       /\ In (Tk_Synthe c koe sp wav size) (events w)
       /\ In (OpenOut out true) (events w)
       /\ In (WriteOut out wav size) (events w)
       /\ wav <> null /\ 0 < size.
Proof.
  intros Hin.
  destruct (events_ran w) as (code & Hcode & R).
  remember (events w) as t eqn:Et. clear Et.
  destruct R as [code t S | cfg code t S Hhalt].
  - apply started_halt_events in S. destruct S as (text & ->).
    destruct Hin as [E|[]]. discriminate.
  - destruct (halted_stdout w cfg code t s Hhalt Hin)
      as (-> & Hs & (H1 & H2) & koe & wav & size & Hsyn & Hopen & Hwrite & Hwav & Hsize).
    split; [assumption|]. split.
    + rewrite Hs. inversion S; subst. reflexivity.
    + split; [assumption|]. split; [assumption|].
      exists (out_path cfg), (codec_of (use_sjis cfg)), koe, (speed cfg), wav, size.
      auto 10.
Qed.

Lemma stdout_reports_written_file_witness :
  In (Stdout ("out.wav" ++ nl)) (events (Sample.two_lines []))
  /\ exit_code (Sample.two_lines []) = Some 0
  /\ count is_write (events (Sample.two_lines [])) = 1%nat.
Proof.
  assert (H : In (Stdout ("out.wav" ++ nl)) (events (Sample.two_lines [])))
    by (vm_compute; auto 20).
  destruct (stdout_reports_written_file (Sample.two_lines []) _ H)
    as (Hcode & _ & _ & Hw & _).
  auto.
Defined.

(** ** Libraries *)

Section LibraryFacts.

Variable w : World.




End LibraryFacts.





(** ** The session and the license keys *)

Section CreateFacts.

Variable w : World.

(** The one [AqKanji2Koe_Create] call of a pipeline run: on the
    dictionary of the configuration, right after the loads and the
    license keys. *)
Lemma halted_create (cfg : Config) (code : Z) (t : trace)
    (dic : string) (h0 : ptr) (err0 : Z) :
  halted w cfg code t ->
  In (K2k_Create dic h0 err0) t ->
  dic = k2k_dic_of cfg
  /\ w_Create w dic = (h0, err0)
  /\ exists post,
       t = session_events w cfg h0 err0 ++ post
       /\ (count is_key post = 0 /\ count is_create post = 0
           /\ count is_load post = 0)%nat.
Proof.
  intros H Hev.
  pose proof (not_in_keys cfg (K2k_Create dic h0 err0) eq_refl) as Hkeys.
  halted_cases H.
  2,3: apply load_refused_events in Hload; destruct Hload as (m & [-> | ->]).
  all: try (pose proof (not_in_converted _ _ d (K2k_Create dic h0 err0) eq_refl Hd)
              as Hconv).
  all: try solve [exfalso; in_pieces Hev; intuition discriminate].
  all: assert (E : K2k_Create (k2k_dic_of cfg) h err = K2k_Create dic h0 err0)
         by (in_pieces Hev; intuition (try discriminate; try contradiction));
       injection E as <- <- <-;
       split; [reflexivity|]; split; [assumption|].
  1,2: eexists; split; [reflexivity|]; repeat split; count_halted; reflexivity.
  all: eexists; split;
    [unfold converting_events; rewrite <- app_assoc; reflexivity|];
    repeat split; count_halted; reflexivity.
Qed.

End CreateFacts.

(** X18: a run that reaches [AqKanji2Koe_Create] has by then loaded the
    two libraries and pushed the license keys, and does neither again:
    a non-empty developer key goes to both components, in the order
    converter, synthesiser, a non-empty user key to the synthesiser
    only, an empty key nowhere; each key is the command-line value when
    there is one, an empty one included, and the environment variable
    otherwise. *)
Theorem license_keys_before_session
    (w : World) (dic : string) (h : ptr) (err : Z) :
  In (K2k_Create dic h err) (events w) ->
  exists dll1 m1 dll2 m2 post,
    events w
    = [LoadLibraryW dll1 m1; LoadLibraryW dll2 m2]
      ++ (if Str.empty (requested_dev_key w) then []
          else [K2k_SetDevKey (requested_dev_key w);
                Tk_SetDevKey (requested_dev_key w)])
      ++ (if Str.empty (requested_usr_key w) then []
          else [Tk_SetUsrKey (requested_usr_key w)])
      ++ K2k_Create dic h err :: post
    /\ count is_key post = 0%nat
    /\ count is_load post = 0%nat
    /\ count is_create post = 0%nat.
Proof.
  intros Hev.
  destruct (events_ran w) as (code & Hcode & R).
  remember (events w) as t eqn:Et. clear Et.
  destruct R as [code t S | cfg code t S Hhalt].
  - apply started_halt_events in S. destruct S as (text & ->).
    destruct Hev as [E|[]]. discriminate.
  - destruct (halted_create w cfg code t dic h err Hhalt Hev)
      as (_ & _ & post & -> & Hk & Hc & Hl).
    exists (k2k_dll_of cfg), (w_LoadLibraryW w (k2k_dll_of cfg)),
      (tk_dll_of cfg), (w_LoadLibraryW w (tk_dll_of cfg)), post.
    split; [|auto].
    unfold session_events, key_events. rewrite <- !app_assoc.
    assert (Ed : dev_key cfg = requested_dev_key w) by (inversion S; reflexivity).
    assert (Eu : usr_key cfg = requested_usr_key w) by (inversion S; reflexivity).
    assert (Ek : dic = k2k_dic_of cfg).
    { destruct (halted_create w cfg code _ dic h err Hhalt Hev) as (E & _).
      exact E. }
    rewrite Ed, Eu, Ek.
    destruct (Str.empty (requested_dev_key w)), (Str.empty (requested_usr_key w));
      reflexivity.
Qed.

Lemma license_keys_before_session_witness :
  In (K2k_Create (k2k_dic_of Sample.cfg0) 77 0)
    (events (Sample.licensed ["--dev-key"; "cli-dev"]))
  /\ requested_dev_key (Sample.licensed ["--dev-key"; "cli-dev"]) = "cli-dev"
  /\ requested_usr_key (Sample.licensed ["--dev-key"; "cli-dev"]) = "env-usr"
  /\ exists dll1 m1 dll2 m2 post,
       events (Sample.licensed ["--dev-key"; "cli-dev"])
       = [LoadLibraryW dll1 m1; LoadLibraryW dll2 m2]
         ++ [K2k_SetDevKey "cli-dev"; Tk_SetDevKey "cli-dev"]
         ++ [Tk_SetUsrKey "env-usr"]
         ++ K2k_Create (k2k_dic_of Sample.cfg0) 77 0 :: post.
Proof.
  assert (H : In (K2k_Create (k2k_dic_of Sample.cfg0) 77 0)
                (events (Sample.licensed ["--dev-key"; "cli-dev"])))
    by (vm_compute; auto 20).
  split; [exact H|]. split; [reflexivity|]. split; [reflexivity|].
  destruct (license_keys_before_session _ _ _ _ H)
    as (dll1 & m1 & dll2 & m2 & post & E & _).
  exists dll1, m1, dll2, m2, post. exact E.
Defined.

(** An explicitly empty key on the command line silences the key of the
    environment. *)
Example empty_key_overrides_environment :
  count is_key (events (Sample.licensed ["--dev-key="; "--usr-key="])) = 0%nat
  /\ count is_key (events (Sample.licensed [])) = 3%nat.
Proof. split; reflexivity. Qed.

(** X19: when [AqKanji2Koe_Create] returns no session, the run ends
    there: the diagnostic with the component's error code follows the
    call at once, the exit code is 4, nothing is released and the input
    is never read. *)
Theorem create_failure_ends_run (w : World) (dic : string) (errc : Z) :
  In (K2k_Create dic null errc) (events w) ->
  exit_code w = Some 4
  /\ (exists pre,
        events w = pre ++ [K2k_Create dic null errc; Stderr (msg_create_failed errc)])
  /\ count is_release (events w) = 0%nat
  /\ count is_read_stdin (events w) = 0%nat.
Proof.
  intros Hev.
  destruct (events_ran w) as (code & Hcode & R).
  remember (events w) as t eqn:Et. clear Et.
  destruct R as [code t S | cfg code t S Hhalt].
  - apply started_halt_events in S. destruct S as (text & ->).
    destruct Hev as [E|[]]. discriminate.
  - destruct (halted_create w cfg code t dic null errc Hhalt Hev)
      as (-> & Hc & _).
    pose proof (not_in_keys cfg (K2k_Create (k2k_dic_of cfg) null errc) eq_refl)
      as Hkeys.
    halted_cases Hhalt.
    2,3: apply load_refused_events in Hload; destruct Hload as (m & [-> | ->]).
    all: try solve [exfalso; in_pieces Hev; intuition discriminate].
    all: rewrite Hc in Hcreate; injection Hcreate as <- <-; try contradiction.
    split; [assumption|]. split.
    + exists ([LoadLibraryW (k2k_dll_of cfg) (w_LoadLibraryW w (k2k_dll_of cfg));
               LoadLibraryW (tk_dll_of cfg) (w_LoadLibraryW w (tk_dll_of cfg))]
              ++ key_events cfg).
      unfold session_events. rewrite <- !app_assoc. reflexivity.
    + split; count_halted; reflexivity.
Qed.

Lemma create_failure_ends_run_witness :
  In (K2k_Create (k2k_dic_of Sample.cfg0) null 103) (events Sample.no_session)
  /\ exit_code Sample.no_session = Some 4
  /\ count is_read_stdin (events Sample.no_session) = 0%nat.
Proof.
  assert (H : In (K2k_Create (k2k_dic_of Sample.cfg0) null 103)
                (events Sample.no_session))
    by (vm_compute; auto 20).
  destruct (create_failure_ends_run Sample.no_session _ _ H)
    as (Hcode & _ & _ & Hr).
  auto.
Defined.

(** ** Synthesis and the output file *)

Section SyntheFacts.

Variable w : World.

(** Where the synthesis call of a pipeline run stands, and the three
    ways the run goes on from it. *)
Lemma halted_synthe_tail (cfg : Config) (code : Z) (t : trace)
    (c : codec) (koe0 : string) (sp : Z) (wav0 : ptr) (size0 : Z) :
  halted w cfg code t ->
  In (Tk_Synthe c koe0 sp wav0 size0) t ->
  exists h0 err0 d0 rest,
    t = converting_events w cfg h0 err0 d0
        ++ K2k_Release h0 :: Tk_Synthe c koe0 sp wav0 size0 :: rest
    /\ Forall (converted_ok (codec_of (use_sjis cfg)) h0) d0
    /\ h0 <> null
    /\ w_Synthe w c koe0 sp = (wav0, size0)
    /\ ((code = 5 /\ (wav0 = null \/ size0 <= 0)
         /\ rest = [Stderr (msg_synthe_failed size0)])
        \/ (code = 6 /\ wav0 <> null /\ 0 < size0
            /\ rest = [CreateDirectories (w_parent_path w (out_path cfg));
                       OpenOut (out_path cfg) false;
                       Tk_FreeWave wav0;
                       Stderr msg_open_failed])
        \/ (code = 0 /\ wav0 <> null /\ 0 < size0
            /\ rest = [CreateDirectories (w_parent_path w (out_path cfg));
                       OpenOut (out_path cfg) true;
                       WriteOut (out_path cfg) wav0 size0;
                       Tk_FreeWave wav0;
                       Stdout (out_path cfg ++ nl)%string])).
Proof.
  intros H Hev.
  pose proof (not_in_keys cfg (Tk_Synthe c koe0 sp wav0 size0) eq_refl) as Hkeys.
  halted_cases H.
  2,3: apply load_refused_events in Hload; destruct Hload as (m & [-> | ->]).
  all: try (pose proof (not_in_converted _ _ d (Tk_Synthe c koe0 sp wav0 size0)
                          eq_refl Hd) as Hconv).
  all: try solve [exfalso; in_pieces Hev; intuition discriminate].
  all: assert (E : Tk_Synthe (codec_of (use_sjis cfg)) (join_pause (koe_parts d))
                     (speed cfg) wav size = Tk_Synthe c koe0 sp wav0 size0)
         by (in_pieces Hev; intuition (try discriminate; try contradiction));
       injection E as <- <- <- <- <-;
       exists h, err, d; eexists;
       (split; [reflexivity|]); (split; [assumption|]);
       (split; [assumption|]); (split; [assumption|]).
  - left. auto.
  - right. left. auto.
  - right. right. auto.
Qed.

Lemma halted_open_failed (cfg : Config) (code : Z) (t : trace) (out : path) :
  halted w cfg code t ->
  In (OpenOut out false) t ->
  code = 6 /\ out = out_path cfg
  /\ exists koe wav0 size0,
       In (Tk_Synthe (codec_of (use_sjis cfg)) koe (speed cfg) wav0 size0) t.
Proof.
  intros H Hev.
  pose proof (not_in_keys cfg (OpenOut out false) eq_refl) as Hkeys.
  halted_cases H.
  2,3: apply load_refused_events in Hload; destruct Hload as (m & [-> | ->]).
  all: try (pose proof (not_in_converted _ _ d (OpenOut out false) eq_refl Hd)
              as Hconv).
  all: try solve [exfalso; in_pieces Hev; intuition discriminate].
  assert (E : OpenOut (out_path cfg) false = OpenOut out false)
    by (in_pieces Hev; intuition (try discriminate; try contradiction)).
  injection E as <-. split; [reflexivity|]. split; [reflexivity|].
  exists (join_pause (koe_parts d)), wav, size.
  apply in_app_iff. right. cbn [In]. auto.
Qed.

End SyntheFacts.





(** X22: when the output file cannot be opened, the run returns 6; the
    waveform buffer released right after the failed open is the one the
    synthesis call returned, the diagnostic follows, and nothing is
    written or printed on standard output. *)
Theorem open_failure_releases_buffer (w : World) (out : path) :
  In (OpenOut out false) (events w) ->
  exit_code w = Some 6
  /\ (exists pre c koe sp wav size dir,
        events w = pre ++ [Tk_Synthe c koe sp wav size;
                           CreateDirectories dir;
                           OpenOut out false;
                           Tk_FreeWave wav;
                           Stderr msg_open_failed]
        /\ wav <> null /\ 0 < size)
  /\ count is_freewave (events w) = 1%nat
  /\ count is_write (events w) = 0%nat
  /\ count is_stdout (events w) = 0%nat.
Proof.
  intros Hev.
  destruct (events_ran w) as (code & Hcode & R).
  remember (events w) as t eqn:Et. clear Et.
  destruct R as [code t S | cfg code t S Hhalt].
  - apply started_halt_events in S. destruct S as (text & ->).
    destruct Hev as [E|[]]. discriminate.
  - destruct (halted_open_failed w cfg code t out Hhalt Hev)
      as (-> & -> & koe & wav & size & Hsyn).
    destruct (halted_synthe_tail w cfg 6 t _ koe _ wav size Hhalt Hsyn)
      as (h & err & d & rest & -> & Hd & Hh & _ & Hrest).
    destruct Hrest as [(E & _) | [(_ & Hw & Hs & ->) | (E & _)]];
      try discriminate E.
    split; [assumption|]. split.
    + exists (converting_events w cfg h err d ++ [K2k_Release h]),
        (codec_of (use_sjis cfg)), koe, (speed cfg), wav, size,
        (w_parent_path w (out_path cfg)).
      rewrite <- app_assoc. auto.
    + repeat split; count_halted; reflexivity.
Qed.

Lemma open_failure_releases_buffer_witness :
  In (OpenOut "out.wav" false) (events Sample.unwritable)
  /\ exit_code Sample.unwritable = Some 6
  /\ count is_freewave (events Sample.unwritable) = 1%nat.
Proof.
  assert (H : In (OpenOut "out.wav" false) (events Sample.unwritable))
    by (vm_compute; auto 20).
  destruct (open_failure_releases_buffer _ _ H) as (Hcode & _ & Hf & _).
  auto.
Defined.

(** ** The conversion loop, line by line *)

Section LoopOrder.

Variable w : World.
Variable sjis : bool.
Variable h : ptr.


End LoopOrder.


(** Three lines and a blank one, the second call failing. *)
Example convert_lines_stops_at_failure :
  convert_lines Sample.second_fails false 77 ["  a "; String Str.TAB ""; "b"; "c"] "" []
  = (Halt 4,
     [K2k_Convert Utf8 77 "a" 0 ("<a>" ++ nl)%string;
      K2k_Convert Utf8 77 "b" 105 "";
      Stderr (msg_convert_failed 105);
      K2k_Release 77]).
Proof. vm_compute. reflexivity. Qed.

Section LoopCalls.

Variable w : World.
Variable sjis : bool.
Variable h : ptr.



End LoopCalls.



(** ** What a successful run has done *)

Section SuccessBalance.

Variable w : World.

Lemma halted_success (cfg : Config) (t : trace) :
  halted w cfg 0 t ->
  (count is_load t = 2 /\ count is_free_library t = 0
   /\ count is_create t = 1 /\ count is_release t = 1
   /\ count is_synthe t = 1 /\ count is_freewave t = 1
   /\ count is_write t = 1 /\ count is_stdout t = 1)%nat
  /\ (1 <= count is_convert t)%nat.
Proof.
  intros H. remember 0 as code eqn:Ecode. halted_cases H; try discriminate Ecode.
  split.
  - repeat split; count_halted; reflexivity.
  - unfold converting_events, session_events.
    repeat rewrite count_app. repeat rewrite count_cons.
    cbn [is_convert Nat.add].
    destruct d as [|e d']; [exfalso; apply Hparts; reflexivity|].
    inversion Hd as [|? ? (l & k & -> & _) _]; subst.
    rewrite count_cons. cbn [is_convert]. lia.
Qed.

End SuccessBalance.

(** X25: a run that returns 0 without a request for help has loaded both
    libraries and unloaded none, created one session and released it,
    converted at least one line, made one synthesis call and released
    its buffer once, written the output file once and printed its path
    once. *)
Theorem success_is_balanced (w : World) :
  exit_code w = Some 0 -> help_requested w = false ->
  (count is_load (events w) = 2 /\ count is_free_library (events w) = 0
   /\ count is_create (events w) = 1 /\ count is_release (events w) = 1
   /\ count is_synthe (events w) = 1 /\ count is_freewave (events w) = 1
   /\ count is_write (events w) = 1 /\ count is_stdout (events w) = 1)%nat
  /\ (1 <= count is_convert (events w))%nat.
Proof.
  intros Hexit Hhelp.
  destruct (events_ran w) as (code & Hcode & R).
  remember (events w) as t eqn:Et. clear Et.
  rewrite Hexit in Hcode. injection Hcode as Ecode.
  destruct R as [code t S | cfg code t S Hhalt]; subst code.
  - inversion S; subst; congruence.
  - apply (halted_success w cfg t Hhalt).
Qed.

Lemma success_is_balanced_witness :
  exit_code (Sample.two_lines []) = Some 0
  /\ help_requested (Sample.two_lines []) = false
  /\ count is_release (events (Sample.two_lines [])) = 1%nat
  /\ count is_freewave (events (Sample.two_lines [])) = 1%nat.
Proof.
  destruct (success_is_balanced (Sample.two_lines []) eq_refl eq_refl)
    as ((_ & _ & _ & Hr & _ & Hf & _) & _).
  auto.
Defined.
